(** * Highcharts axis-label shortening plugin: a shallow embedding

    The development follows [highcharts-axis-labels-shorten.js]:
    - [Num]: the JavaScript numbers the plugin computes with;
    - [Str]: JavaScript strings as sequences of UTF-16 code units;
    - [measureText], [getShortened], [TextShortener]: the measuring helper,
      the greedy truncation loop and the memoising wrapper;
    - [Plugin]: the wrapped [Axis.prototype.init] with its formatter, tick
      positioner and category rewrite. *)

From Stdlib Require Import ZArith QArith Qround Lqa List Ascii String Lia Sorted.
From stdpp Require Import base option gmap list.

Local Open Scope Z_scope.

(** ** JavaScript numbers

    Pixel widths are IEEE doubles in the browser. They are modelled as exact
    rationals together with the three special values that division by zero and
    [undefined] coerce to; rounding and overflow of doubles are not modelled,
    and there is a single zero (it behaves as [+0]).

    A quotient or a difference computed here can therefore differ from the
    double in the last place: 17 / (34 / 14) is 7 here and 7.000000000000001
    in the browser, and [Math.ceil] of it is 7 here and 8 there. What is
    proved about control flow, [NaN], infinities and whole numbers below
    2^53 holds of the doubles as it stands; a statement on the exact value
    of a rounded quotient holds up to that last place. *)
Module Num.

Inductive number : Type :=
  | Fin (q : Q)
  | PosInf
  | NegInf
  | NaN.

Definition of_Z (z : Z) : number := Fin (inject_Z z).
Definition of_nat (n : nat) : number := of_Z (Z.of_nat n).

Definition Qlt_bool (a b : Q) : bool := negb (Qle_bool b a).
Definition Qzero (a : Q) : bool := Qeq_bool a 0.

(** [a < b]: false as soon as one side is [NaN]. *)
Definition lt (a b : number) : bool :=
  match a, b with
  | NaN, _ | _, NaN => false
  | Fin x, Fin y => Qlt_bool x y
  | Fin _, PosInf => true
  | Fin _, NegInf => false
  | NegInf, NegInf => false
  | NegInf, _ => true
  | PosInf, _ => false
  end.

(** [a - b] *)
Definition sub (a b : number) : number :=
  match a, b with
  | NaN, _ | _, NaN => NaN
  | Fin x, Fin y => Fin (x - y)
  | Fin _, PosInf => NegInf
  | Fin _, NegInf => PosInf
  | PosInf, PosInf => NaN
  | PosInf, _ => PosInf
  | NegInf, NegInf => NaN
  | NegInf, _ => NegInf
  end.

(** [a / b]: a finite non-zero number over zero is an infinity, [0/0] and
    [Infinity/Infinity] are [NaN]. *)
Definition div (a b : number) : number :=
  match a, b with
  | NaN, _ | _, NaN => NaN
  | Fin x, Fin y =>
      if Qzero y then
        if Qzero x then NaN
        else if Qlt_bool 0 x then PosInf else NegInf
      else Fin (x / y)
  | Fin _, _ => Fin 0
  | PosInf, Fin y => if Qlt_bool y 0 then NegInf else PosInf
  | NegInf, Fin y => if Qlt_bool y 0 then PosInf else NegInf
  | _, _ => NaN
  end.

(** [a % b]: the remainder takes the sign of the dividend. *)
Definition Qtrunc (x : Q) : Z := if Qlt_bool x 0 then Qceiling x else Qfloor x.

Definition rem (a b : number) : number :=
  match a, b with
  | Fin x, Fin y =>
      if Qzero y then NaN else Fin (x - y * inject_Z (Qtrunc (x / y)))
  | Fin x, PosInf | Fin x, NegInf => Fin x
  | _, _ => NaN
  end.

(** [Math.ceil], [Math.floor] and [Math.round] (halves round up). *)
Definition ceil (a : number) : number :=
  match a with Fin x => of_Z (Qceiling x) | _ => a end.

Definition floor (a : number) : number :=
  match a with Fin x => of_Z (Qfloor x) | _ => a end.

Definition round (a : number) : number :=
  match a with Fin x => of_Z (Qfloor (x + (1 # 2))) | _ => a end.

(** [Math.max(a, b)]: [NaN] as soon as one argument is. *)
Definition max (a b : number) : number :=
  match a, b with
  | NaN, _ | _, NaN => NaN
  | _, _ => if lt a b then b else a
  end.

(** [a === 0] on numbers. *)
Definition is_zero (a : number) : bool :=
  match a with Fin x => Qzero x | _ => false end.

(** ToBoolean on a number: [0] and [NaN] are falsy. *)
Definition truthy (a : number) : bool :=
  match a with Fin x => negb (Qzero x) | NaN => false | _ => true end.

(** ToIntegerOrInfinity clamped to [0 .. len], as the string methods do with
    an index argument: [NaN] counts as 0. *)
Definition clamp_index (a : number) (len : nat) : nat :=
  match a with
  | Fin x => Nat.min (Z.to_nat (Qtrunc x)) len
  | PosInf => len
  | NegInf | NaN => 0%nat
  end.

End Num.

Export Num(number, Fin, PosInf, NegInf, NaN).

(** ** JavaScript strings: sequences of UTF-16 code units *)
Module Str.

Abbreviation jsstring := (list N).

(** A literal, written with Rocq's (8-bit) characters. *)
Fixpoint js (s : string) : jsstring :=
  match s with
  | EmptyString => []
  | String a r => N_of_ascii a :: js r
  end.

Definition dot : N := 46.
Definition space : N := 32.
Definition nbsp : N := 160.

(** [s.substring(0, k)] *)
Definition substring0 (s : jsstring) (k : number) : jsstring :=
  take (Num.clamp_index k (length s)) s.

(** [s.replace(/ /g, nbsp)]: every U+0020 becomes U+00A0 *)
Definition replaceSpaces (s : jsstring) : jsstring :=
  map (fun c => if N.eqb c space then nbsp else c) s.

End Str.

Export Str(js).
Abbreviation jsstring := (list N).

(** ** Measuring text in the page *)

Record Size : Type := { height : number; width : number }.

(** What a measure function hands back. [getShortened] only reads [.width];
    a value that is not a bounding box (see [TextShortener.lookup]) has no
    such property, the read gives [undefined], and [undefined] behaves as
    [NaN] in [<], [/] and [-]. *)
Inductive measured : Type :=
  | Box (s : Size)
  | Foreign.

Definition widthOf (m : measured) : number :=
  match m with Box s => width s | Foreign => NaN end.

(** A width as a layout engine reports it: a non-negative number. *)
Definition nonneg (n : number) : Prop :=
  exists w, n = Fin w /\ (0 <= w)%Q.

(** The page keeps a log of the texts it was asked to lay out, as
    (className, text), most recent first. *)
Record Page : Type := { layouts : list (jsstring * jsstring) }.

Section MeasureText.
(** The layout engine ([getBBox] of a fresh [svg] holding the text under the
    class) is the browser's: it is a parameter, and may depend on what the
    page has laid out before. *)
Variable getBBox : Page -> jsstring -> jsstring -> Size.

Definition measureText (text className : jsstring) (page : Page)
  : Size * Page :=
  match text with
  | [] => ({| height := Num.of_Z 0; width := Num.of_Z 0 |}, page)
  | _ => (getBBox page className text,
          {| layouts := (className, text) :: layouts page |})
  end.
End MeasureText.

(** ** The greedy truncation loop *)

Definition ellipsis : jsstring := js "...".
Definition placeholder : jsstring := js ".".

Section GetShortened.
(** [St] is whatever the measure function reads and updates through [this]. *)
Context {St : Type}.
Variable measureFunction : jsstring -> jsstring -> St -> measured * St.

(** The characters to keep, lines 92 to 96, in the arithmetic of [Num]. *)
Definition keepChars (short : jsstring) (w width : number) : number :=
  let oneLetterApprox := Num.div w (Num.of_nat (length short)) in
  let overlap := Num.sub w width in
  Num.max (Num.of_Z 0)
    (Num.sub
       (Num.sub (Num.of_nat (length short))
                (Num.ceil (Num.div overlap oneLetterApprox)))
       (Num.of_Z 3)).

(** The [do ... while (true)] loop; [fuel] bounds the number of iterations
    and [None] means that it ran out. *)
Fixpoint shortenLoop (fuel : nat) (width : number) (className : jsstring)
    (short : jsstring) (shortened : bool) (st : St)
  : option (jsstring * St) :=
  match fuel with
  | O => None
  | S fuel' =>
      let (m, st') := measureFunction short className st in
      let w := widthOf m in
      if Num.lt w width then
        Some (short ++ (if shortened then ellipsis else []), st')
      else
        let k := keepChars short w width in
        if Num.lt k (Num.of_Z 1) then Some (placeholder, st')
        else shortenLoop fuel' width className (Str.substring0 short k) true st'
  end.

Definition getShortened (fuel : nat) (text : jsstring) (width : number)
    (className : jsstring) (st : St) : option (jsstring * St) :=
  shortenLoop fuel width className text false st.

(** [w < width] for the text [s] measured in state [st]: the loop's exit test. *)
Definition fits (width : number) (className s : jsstring) (st : St) : bool :=
  Num.lt (widthOf (measureFunction s className st).1) width.


(** Measuring the same text again straight away gives the same width. This
    holds of a measure that is a function of the text alone, and of one that
    memoises. *)
Definition repeatable (className : jsstring) : Prop :=
  forall s st,
    widthOf (measureFunction s className (measureFunction s className st).2).1
    = widthOf (measureFunction s className st).1.
End GetShortened.

(** ** TextShortener: measuring through a cache *)
Module TextShortener.

(** [this._cache]: class name -> (text -> measured size). *)
Record t : Type := { _cache : gmap jsstring (gmap jsstring Size) }.

Definition new : t := {| _cache := ∅ |}.

(** The class caches are plain objects, so a read also sees what
    [Object.prototype] defines. *)
Definition objectPrototype : list jsstring :=
  map js [ "constructor"; "toString"; "toLocaleString"; "valueOf";
           "hasOwnProperty"; "isPrototypeOf"; "propertyIsEnumerable";
           "__proto__"; "__defineGetter__"; "__defineSetter__";
           "__lookupGetter__"; "__lookupSetter__" ]%string.

Definition inherited (key : jsstring) : bool :=
  bool_decide (key ∈ objectPrototype).

(** [classCache[text]]: an own entry, else an inherited member (a function or
    an object: truthy, and not a bounding box), else [undefined]. *)
Definition lookup (classCache : gmap jsstring Size) (text : jsstring)
  : option measured :=
  match classCache !! text with
  | Some s => Some (Box s)
  | None => if inherited text then Some Foreign else None
  end.

Section Methods.
Variable getBBox : Page -> jsstring -> jsstring -> Size.

(** [TextShortener.prototype.measureText]; on a miss it calls the
    closure's [measureText] above. Class names are ordinary keys:
    a [className] that is itself a member of [Object.prototype] is outside
    this model (the plugin passes one literal class name). *)
Definition measureText (text className : jsstring) (st : t * Page)
  : measured * (t * Page) :=
  let (this, page) := st in
  let classCache := default ∅ (_cache this !! className) in
  match lookup classCache text with
  | Some hit =>
      (hit, ({| _cache := <[className := classCache]> (_cache this) |}, page))
  | None =>
      let (size, page') := measureText getBBox text className page in
      (Box size,
       ({| _cache := <[className := <[text := size]> classCache]> (_cache this) |},
        page'))
  end.

(** [TextShortener.prototype.getShortened] *)
Definition getShortened (fuel : nat) (text : jsstring) (width : number)
    (className : jsstring) (st : t * Page) : option (jsstring * (t * Page)) :=
  getShortened measureText fuel text width className st.

(** A sequence of [measureText] calls, each given as (text, className). *)
Definition measureAll (calls : list (jsstring * jsstring)) (st : t * Page)
  : t * Page :=
  foldl (fun st call => (measureText call.1 call.2 st).2) st calls.
End Methods.

(** The own entry of the cache for a class name and a text. *)
Definition entry (this : t) (className text : jsstring) : option Size :=
  _cache this !! className ≫= (fun classCache => classCache !! text).

(** Every cached width is a non-negative number. *)
Definition sizesNonneg (st : t * Page) : Prop :=
  forall c t s, entry st.1 c t = Some s -> nonneg (width s).

(** The cache holds nothing but width 0 for the empty text. *)
Definition emptyIsZero (className : jsstring) (st : t * Page) : Prop :=
  forall s, entry st.1 className [] = Some s -> width s = Num.of_Z 0.

(** The states a shortener can be in: a new one, after any calls of
    [measureText] under ordinary class names. *)
Definition reachable (getBBox : Page -> jsstring -> jsstring -> Size)
    (st : t * Page) : Prop :=
  exists calls page,
    Forall (fun call => inherited call.2 = false) calls
    /\ st = measureAll getBBox calls (new, page).

(** No pair is in the log twice, and every logged pair has its entry. *)
Definition loggedOnce (st : t * Page) : Prop :=
  NoDup (layouts st.2)
  /\ forall c t, (c, t) ∈ layouts st.2 -> is_Some (entry st.1 c t).

End TextShortener.

(** A layout engine whose answer does not depend on what was laid out
    before. *)
Definition pageIndependent (getBBox : Page -> jsstring -> jsstring -> Size)
  : Prop :=
  forall page page' className text,
    getBBox page className text = getBBox page' className text.

(** ** The wrapped [Axis.prototype.init] *)
Module Plugin.

(** *** The axis options object *)
Module Options.

(** Values found in an options object, as far as the plugin looks at them. *)
Inductive value : Type :=
  | Undefined
  | Null
  | Bool (b : bool)
  | Number (n : number)
  | Text (s : jsstring)
  | Object.

(** ToBoolean *)
Definition truthy (v : value) : bool :=
  match v with
  | Undefined | Null => false
  | Bool b => b
  | Number n => Num.truthy n
  | Text s => negb (bool_decide (s = []))
  | Object => true
  end.

(** A function-valued option: left out, supplied by the chart's author, or
    one of the two closures of the plugin, which capture [labelsRotated]. *)
Inductive callback : Type :=
  | Unset
  | Supplied (id : nat)
  | ShortenFormatter (labelsRotated : value)
  | SkipPositioner (labelsRotated : value).

Record labelOptions : Type := {
  rotation : value;
  maxStaggerLines : value;
  overflow : value;
  formatter : callback
}.

Record axisOptions : Type := {
  isX : value;
  shortenLabels : value;
  labels : option labelOptions;
  tickPositioner : callback;
  categories : option (list jsstring)
}.

(** The object literal handed to [H.merge]. *)
Record labelPatch : Type := {
  patchMaxStaggerLines : value;
  patchOverflow : value;
  patchFormatter : callback
}.

Record patch : Type := {
  patchLabels : labelPatch;
  patchTickPositioner : callback;
  patchCategories : list jsstring
}.

End Options.
Import Options.

Definition axisLabelsClass : jsstring := js "highcharts-axis-labels".

(** [labels.formatter]: [this.value] is the label, [this.chart.plotWidth] and
    [this.axis.tickPositions.length] come from the host; [ts] is the one
    [TextShortener] of the plugin. *)
Definition formatter (getBBox : Page -> jsstring -> jsstring -> Size)
    (fuel : nat) (labelsRotated : value) (plotWidth : number)
    (tickPositions : list nat) (value : jsstring)
    (ts : TextShortener.t * Page)
  : option (jsstring * (TextShortener.t * Page)) :=
  let pixelWidth :=
    if truthy labelsRotated then Num.of_Z 200
    else Num.round (Num.div plotWidth (Num.of_nat (length tickPositions))) in
  TextShortener.getShortened getBBox fuel value pixelWidth axisLabelsClass ts.

(** [tickPositioner]: [this.chart.plotWidth] and [this.categories] come from
    the host. *)
Definition perTickWidth (labelsRotated : value) : number :=
  if truthy labelsRotated then Num.of_Z 20 else Num.of_Z 80.

Definition skip (labelsRotated : value) (plotWidth : number)
    (categories : list jsstring) : number :=
  let ticks := Num.floor (Num.div plotWidth (perTickWidth labelsRotated)) in
  Num.ceil (Num.div (Num.of_nat (length categories)) ticks).

Definition tickPositioner (labelsRotated : value) (plotWidth : number)
    (categories : list jsstring) : list nat :=
  let skip := skip labelsRotated plotWidth categories in
  let indices :=
    filter (fun idx => Num.is_zero (Num.rem (Num.of_nat idx) skip) = true)
           (imap (fun index category => index) categories) in
  indices.

Definition shortenPatch (labelsRotated : value) (categories : list jsstring)
  : patch :=
  {| patchLabels :=
       {| patchMaxStaggerLines := Number (Num.of_Z 1);
          patchOverflow := Bool false;
          patchFormatter := ShortenFormatter labelsRotated |};
     patchTickPositioner := SkipPositioner labelsRotated;
     patchCategories :=
       map (fun category => Str.replaceSpaces category) categories |}.

(** What a call of the wrapper leaves behind: the axis as the original [init]
    set it up together with the options object (which [H.merge(true, ...)]
    extends in place), or the [TypeError] of calling [map] on a missing
    [categories]. *)
Inductive outcome (Axis : Type) : Type :=
  | Proceeded (axis : Axis) (options : axisOptions)
  | TypeError.
Arguments Proceeded {Axis} axis options.
Arguments TypeError {Axis}.

Section Init.
Context {Chart Axis : Type}.
(** The host's [H.merge(true, options, patch)] and the original [init]. *)
Variable merge : axisOptions -> patch -> axisOptions.
Variable proceed : Chart -> axisOptions -> Axis -> Axis.

Definition init (chart : Chart) (options : axisOptions) (this : Axis)
  : outcome Axis :=
  let labelsRotated :=
    match labels options with
    | Some l => rotation l
    | None => Undefined
    end in
  if negb (truthy (isX options)) || negb (truthy (shortenLabels options))
  then Proceeded (proceed chart options this) options
  else
    match categories options with
    | None => TypeError
    | Some cats =>
        let options' := merge options (shortenPatch labelsRotated cats) in
        Proceeded (proceed chart options' this) options'
    end.
End Init.

(** A stand-in for the host's [merge] in sample runs, after Highcharts'
    own: objects are merged key by key, everything else (arrays included) is
    replaced. *)
Definition deepMerge (options : axisOptions) (p : patch) : axisOptions :=
  {| isX := isX options;
     shortenLabels := shortenLabels options;
     labels :=
       Some {| rotation :=
                 match labels options with
                 | Some l => rotation l
                 | None => Undefined
                 end;
               maxStaggerLines := patchMaxStaggerLines (patchLabels p);
               overflow := patchOverflow (patchLabels p);
               Options.formatter := patchFormatter (patchLabels p) |};
     Options.tickPositioner := patchTickPositioner p;
     categories := Some (patchCategories p) |}.

End Plugin.

(** ** The specification's formulas *)
Module Spec.

(** Retained characters, in the specification's words: the candidate length
    minus ceil(overlap / averageCharacterWidth) minus 3, floored at 0. *)
Definition retainedChars (len : nat) (measuredWidth targetWidth : Q) : Z :=
  let overlap := (measuredWidth - targetWidth)%Q in
  let averageCharacterWidth := (measuredWidth / inject_Z (Z.of_nat len))%Q in
  Z.max 0 (Z.of_nat len - Qceiling (overlap / averageCharacterWidth) - 3).

(** The skip stride, in the specification's words:
    ceil(categoryCount / floor(plotWidth / perTickWidth)). *)
Definition stride (rotated : bool) (plotWidth : number) (categoryCount : nat)
  : number :=
  let perTickWidth := Num.of_Z (if rotated then 20 else 80) in
  Num.ceil (Num.div (Num.of_nat categoryCount)
                    (Num.floor (Num.div plotWidth perTickWidth))).

End Spec.

(** ** Sample pages *)
Module Sample.

(** Advance widths of a proportional font, in pixels. *)
Definition glyph (c : N) : Q :=
  if N.eqb c 87 (* W *) then 10
  else if N.eqb c 105 (* i *) then 2
  else if N.eqb c Str.dot then 4
  else 6.

Definition proportional (page : Page) (className text : jsstring) : Size :=
  {| height := Num.of_Z 16;
     width := Fin (foldr (fun c acc => (glyph c + acc)%Q) 0%Q text) |}.

(** Every glyph is ten pixels wide. *)
Definition monospace (page : Page) (className text : jsstring) : Size :=
  {| height := Num.of_Z 16; width := Num.of_Z (10 * Z.of_nat (length text)) |}.

Definition blank : Page := {| layouts := [] |}.
Definition fresh : TextShortener.t * Page := (TextShortener.new, blank).

(** A measure function that does not go through a cache. *)
Definition direct (getBBox : Page -> jsstring -> jsstring -> Size)
    (text className : jsstring) (page : Page) : measured * Page :=
  let (size, page') := measureText getBBox text className page in
  (Box size, page').

Definition plainMeasure : jsstring -> jsstring -> Page -> measured * Page :=
  direct monospace.

Definition tenChars : jsstring := js "abcdefghij".

(** The log after measuring [tenChars] and then "ab" under class "c". *)
Definition blank_after_two : Page :=
  {| layouts := [(js "c", js "ab"); (js "c", tenChars)] |}.

(** Two axes, and an original [init] that only counts its calls. *)
Definition yAxis : Plugin.Options.axisOptions :=
  {| Plugin.Options.isX := Plugin.Options.Undefined;
     Plugin.Options.shortenLabels := Plugin.Options.Bool true;
     Plugin.Options.labels := None;
     Plugin.Options.tickPositioner := Plugin.Options.Unset;
     Plugin.Options.categories := Some [js "a b"] |}.

Definition xAxis : Plugin.Options.axisOptions :=
  {| Plugin.Options.isX := Plugin.Options.Bool true;
     Plugin.Options.shortenLabels := Plugin.Options.Bool true;
     Plugin.Options.labels := None;
     Plugin.Options.tickPositioner := Plugin.Options.Unset;
     Plugin.Options.categories := Some [js "a b"; js "cd"] |}.

Definition keepAxis (chart : unit) (options : Plugin.Options.axisOptions)
    (this : nat) : nat :=
  S this.

End Sample.

(** * Properties *)

(** ** Arithmetic of the number model *)
Module NumFacts.

Lemma Qlt_bool_iff (a b : Q) : Num.Qlt_bool a b = true <-> (a < b)%Q.
Proof.
  unfold Num.Qlt_bool. rewrite negb_true_iff.
  split; intros H.
  - apply Qnot_le_lt. intros Hle. apply Qle_bool_iff in Hle. congruence.
  - destruct (Qle_bool b a) eqn:E; [|reflexivity].
    apply Qle_bool_iff in E. exfalso. exact (Qlt_not_le _ _ H E).
Qed.

Lemma Qlt_bool_false_iff (a b : Q) : Num.Qlt_bool a b = false <-> (b <= a)%Q.
Proof.
  unfold Num.Qlt_bool. rewrite negb_false_iff. apply Qle_bool_iff.
Qed.

Lemma Qzero_iff (a : Q) : Num.Qzero a = true <-> (a == 0)%Q.
Proof. apply Qeq_bool_iff. Qed.

Lemma Qzero_false_iff (a : Q) : Num.Qzero a = false <-> ~ (a == 0)%Q.
Proof.
  rewrite <- Qzero_iff. destruct (Num.Qzero a); split; congruence.
Qed.

Lemma Qzero_inject_Z (k : Z) : k <> 0 -> Num.Qzero (inject_Z k) = false.
Proof.
  intros Hk. apply Qzero_false_iff. intros E. apply Hk.
  change 0%Q with (inject_Z 0) in E. now rewrite inject_Z_injective in E.
Qed.

Lemma div_Fin (x y : Q) :
  Num.Qzero y = false -> Num.div (Fin x) (Fin y) = Fin (x / y).
Proof. intros H. unfold Num.div. now rewrite H. Qed.

End NumFacts.

(** ** The truncation loop *)
Section ShortenFacts.
Context {St : Type}.
Variable measureFunction : jsstring -> jsstring -> St -> measured * St.
Variable width : number.
Variable className : jsstring.

Lemma shortenLoop_unfold fuel short shortened st :
  shortenLoop measureFunction (S fuel) width className short shortened st =
  let st' := (measureFunction short className st).2 in
  if fits measureFunction width className short st then
    Some (short ++ (if shortened then ellipsis else []), st')
  else
    let k := keepChars short (widthOf (measureFunction short className st).1) width in
    if Num.lt k (Num.of_Z 1) then Some (placeholder, st')
    else shortenLoop measureFunction fuel width className
           (Str.substring0 short k) true st'.
Proof.
  unfold fits. simpl. destruct (measureFunction short className st) as [m st'].
  reflexivity.
Qed.

Lemma substring0_prefix s k : Str.substring0 s k `prefix_of` s.
Proof. unfold Str.substring0. apply prefix_take. Qed.

(** Whatever the loop returns is the placeholder, or the candidate it
    stopped at with its suffix: the current candidate, or a prefix of it that
    was measured below the target. *)
Lemma shortenLoop_shape fuel : forall short shortened st r st',
  shortenLoop measureFunction fuel width className short shortened st = Some (r, st') ->
  r = placeholder
  \/ (r = short ++ (if shortened then ellipsis else [])
      /\ fits measureFunction width className short st = true)
  \/ (exists p st0, p `prefix_of` short /\ r = p ++ ellipsis
                    /\ fits measureFunction width className p st0 = true).
Proof.
  induction fuel as [|fuel IH]; intros short shortened st r st' H; [discriminate|].
  rewrite shortenLoop_unfold in H. cbv zeta in H.
  destruct (fits _ _ _ short st) eqn:Hfit.
  - inversion H; subst. right; left. split; reflexivity.
  - destruct (Num.lt _ _).
    + inversion H. now left.
    + apply IH in H as [H | [[H Hp] | (p & st0 & Hp & H & Hpfit)]].
      * now left.
      * right; right. eexists _, _.
        split; [apply substring0_prefix | split; [exact H | exact Hp]].
      * right; right. exists p, st0. split; [|split; assumption].
        etrans; [exact Hp | apply substring0_prefix].
Qed.

(** With a repeatable measure a candidate that did not fit is never the
    one the loop stops at. *)
Lemma shortenLoop_strict (Hrep : repeatable measureFunction className) fuel :
  forall short shortened st r st',
  fits measureFunction width className short st = false ->
  shortenLoop measureFunction fuel width className short shortened st = Some (r, st') ->
  r = placeholder
  \/ (exists p, p `prefix_of` short /\ p <> short /\ r = p ++ ellipsis).
Proof.
  induction fuel as [|fuel IH]; intros short shortened st r st' Hfit H; [discriminate|].
  rewrite shortenLoop_unfold in H. cbv zeta in H. rewrite Hfit in H.
  destruct (Num.lt _ _); [inversion H; now left|].
  set (k := keepChars _ _ _) in H.
  destruct (decide (Str.substring0 short k = short)) as [E|NE].
  - rewrite E in H. apply IH in H; [exact H|].
    unfold fits in *. rewrite Hrep. exact Hfit.
  - pose proof (substring0_prefix short k) as Hpre.
    apply shortenLoop_shape in H as [H | [[H _] | (p & st0 & Hp & H & _)]].
    + now left.
    + right. eexists; split; [exact Hpre | split; [exact NE | exact H]].
    + right. exists p. split; [etrans; eassumption|]. split; [|exact H].
      intros ->. apply NE. apply (anti_symm prefix); assumption.
Qed.

(** C2. A string that already fits comes back unchanged: when the measured
    width of [s] is below [width], [getShortened] returns [s] itself after
    one measurement; hence feeding it a fitting output again (in the state
    the measurement left) returns that output unchanged. *)
Theorem getShortened_fitting_unchanged fuel s st :
  fits measureFunction width className s st = true ->
  let st1 := (measureFunction s className st).2 in
  getShortened measureFunction (S fuel) s width className st = Some (s, st1)
  /\ (forall fuel0 text st0,
        getShortened measureFunction fuel0 text width className st0 = Some (s, st) ->
        getShortened measureFunction (S fuel) s width className st = Some (s, st1)).
Proof.
  intros Hfit st1.
  assert (Hone : forall fuel0 t st0,
             fits measureFunction width className t st0 = true ->
             getShortened measureFunction (S fuel0) t width className st0
             = Some (t, (measureFunction t className st0).2)).
  { intros fuel0 t st0 H. unfold getShortened. rewrite shortenLoop_unfold.
    cbv zeta. rewrite H. now rewrite app_nil_r. }
  split; [now apply Hone|].
  intros fuel0 text st0 _. now apply Hone.
Qed.

End ShortenFacts.

(** ** One iteration, in exact arithmetic *)
Section KeepChars.

Lemma inject_nat_pos (n : nat) : (0 < n)%nat -> (0 < inject_Z (Z.of_nat n))%Q.
Proof. intros H. rewrite <- (Zlt_Qlt 0). lia. Qed.

Lemma average_pos (len : nat) (w : Q) :
  (0 < len)%nat -> (0 < w)%Q -> (0 < w / inject_Z (Z.of_nat len))%Q.
Proof.
  intros Hlen Hw. apply Qlt_shift_div_l; [now apply inject_nat_pos|].
  now rewrite Qmult_0_l.
Qed.

Lemma dropped_nonneg (len : nat) (w target : Q) :
  (0 < len)%nat -> (0 < w)%Q -> (target <= w)%Q ->
  0 <= Qceiling ((w - target) / (w / inject_Z (Z.of_nat len))).
Proof.
  intros Hlen Hw Hle.
  rewrite <- (Qceiling_Z 0).
  apply Qceiling_resp_le.
  apply Qle_shift_div_l; [now apply average_pos|].
  rewrite Qmult_0_l. unfold Qminus. rewrite <- Qle_minus_iff. exact Hle.
Qed.

Lemma retainedChars_bounds (len : nat) (w target : Q) :
  (0 < len)%nat -> (0 < w)%Q -> (target <= w)%Q ->
  0 <= Spec.retainedChars len w target <= Z.of_nat len.
Proof.
  intros Hlen Hw Hle. unfold Spec.retainedChars. cbv zeta.
  pose proof (dropped_nonneg len w target Hlen Hw Hle). lia.
Qed.

(** On a non-empty candidate of positive width that is not below the target,
    the number the code computes is the specification's count. *)
Lemma keepChars_retained (short : jsstring) (w target : Q) :
  short <> [] -> (0 < w)%Q -> (target <= w)%Q ->
  exists q, keepChars short (Fin w) (Fin target) = Fin q
            /\ (q == inject_Z (Spec.retainedChars (length short) w target))%Q.
Proof.
  intros Hne Hw Hle.
  assert (Hlen : (0 < length short)%nat) by (destruct short; [congruence | simpl; lia]).
  unfold keepChars, Spec.retainedChars. cbv zeta.
  set (len := inject_Z (Z.of_nat (length short))).
  assert (Hlen0 : Num.Qzero len = false).
  { apply NumFacts.Qzero_false_iff. intros E.
    pose proof (inject_nat_pos _ Hlen) as P. fold len in P. rewrite E in P.
    exact (Qlt_irrefl _ P). }
  unfold Num.of_nat, Num.of_Z. fold len. simpl Num.div at 2. rewrite Hlen0.
  simpl Num.sub at 3.
  assert (Havg0 : Num.Qzero (w / len) = false).
  { apply NumFacts.Qzero_false_iff. intros E.
    pose proof (average_pos _ _ Hlen Hw) as P. fold len in P. rewrite E in P.
    exact (Qlt_irrefl _ P). }
  simpl Num.div. rewrite Havg0. simpl Num.ceil. unfold Num.of_Z. simpl Num.sub.
  set (c := Qceiling ((w - target) / (w / len))).
  assert (Hx : (len - inject_Z c - inject_Z 3
                == inject_Z (Z.of_nat (length short) - c - 3))%Q).
  { unfold len. unfold Z.sub. rewrite !inject_Z_plus, !inject_Z_opp. reflexivity. }
  unfold Num.max, Num.lt.
  destruct (Num.Qlt_bool (inject_Z 0) (len - inject_Z c - inject_Z 3)) eqn:E.
  - eexists; split; [reflexivity|]. rewrite Hx.
    apply NumFacts.Qlt_bool_iff in E. rewrite Hx, <- Zlt_Qlt in E.
    now rewrite Z.max_r by lia.
  - eexists; split; [reflexivity|].
    apply NumFacts.Qlt_bool_false_iff in E. rewrite Hx, <- Zle_Qle in E.
    now rewrite Z.max_l by lia.
Qed.

Lemma lt_one_iff (q : Q) (k : Z) :
  (q == inject_Z k)%Q -> Num.lt (Fin q) (Num.of_Z 1) = true <-> k < 1.
Proof.
  intros E. unfold Num.lt, Num.of_Z. rewrite NumFacts.Qlt_bool_iff, E, <- Zlt_Qlt.
  reflexivity.
Qed.

Lemma substring0_integer (s : jsstring) (q : Q) (k : Z) :
  (q == inject_Z k)%Q -> 0 <= k <= Z.of_nat (length s) ->
  Str.substring0 s (Fin q) = take (Z.to_nat k) s.
Proof.
  intros E Hk. unfold Str.substring0, Num.clamp_index, Num.Qtrunc.
  assert (Num.Qlt_bool q 0 = false) as ->.
  { apply NumFacts.Qlt_bool_false_iff. rewrite E. rewrite <- (Zle_Qle 0). lia. }
  rewrite E, Qfloor_Z. f_equal. lia.
Qed.

End KeepChars.

Section Iteration.
Context {St : Type}.
Variable measureFunction : jsstring -> jsstring -> St -> measured * St.
Variable className : jsstring.

(** The empty candidate of width 0 under a target that is not above 0: the
    iteration computes [NaN] characters to keep and goes round again. *)
Lemma keepChars_empty_nan (width : number) :
  keepChars [] (Num.of_Z 0) width = NaN.
Proof. destruct width; reflexivity. Qed.

Lemma shortenLoop_empty_stuck (width : number) (inv : St -> Prop) :
  Num.lt (Num.of_Z 0) width = false ->
  (forall st, inv st ->
     widthOf (measureFunction [] className st).1 = Num.of_Z 0
     /\ inv (measureFunction [] className st).2) ->
  forall fuel shortened st, inv st ->
    shortenLoop measureFunction fuel width className [] shortened st = None.
Proof.
  intros Hw Hinv. induction fuel as [|fuel IH]; intros shortened st Hst; [reflexivity|].
  rewrite shortenLoop_unfold. cbv zeta. unfold fits.
  destruct (Hinv st Hst) as [-> Hst']. rewrite Hw, keepChars_empty_nan.
  simpl. now apply IH.
Qed.

End Iteration.

(** ** When the loop does exit *)
Section Termination.
Context {St : Type}.
Variable measureFunction : jsstring -> jsstring -> St -> measured * St.
Variable className : jsstring.
Variable target : Q.
Variable inv : St -> Prop.
Hypothesis target_pos : (0 < target)%Q.
Hypothesis measure_sane : forall s st,
  inv st ->
  inv (measureFunction s className st).2
  /\ (nonneg (widthOf (measureFunction s className st).1)
      \/ (widthOf (measureFunction s className st).1 = NaN /\ s <> [])).

Lemma keepChars_empty_wide (w : Q) :
  (0 < w)%Q -> keepChars [] (Fin w) (Fin target) = Num.of_Z 0.
Proof.
  intros Hw.
  assert (Hz : Num.Qzero w = false).
  { apply NumFacts.Qzero_false_iff. intros E. rewrite E in Hw.
    exact (Qlt_irrefl _ Hw). }
  apply NumFacts.Qlt_bool_iff in Hw.
  unfold keepChars. cbv zeta.
  assert (Num.div (Fin w) (Num.of_nat (length (@nil N))) = PosInf) as ->.
  { unfold Num.div, Num.of_nat, Num.of_Z. simpl length. simpl Z.of_nat.
    change (Num.Qzero (inject_Z 0)) with true. cbv iota. now rewrite Hz, Hw. }
  reflexivity.
Qed.

Lemma keepChars_nan (short : jsstring) (width : number) :
  keepChars short NaN width = NaN.
Proof. reflexivity. Qed.

Lemma retainedChars_drops (len : nat) (w : Q) :
  (0 < len)%nat -> (0 < w)%Q -> (target <= w)%Q ->
  Spec.retainedChars len w target < Z.of_nat len.
Proof.
  intros Hlen Hw Hle. unfold Spec.retainedChars. cbv zeta.
  pose proof (dropped_nonneg len w target Hlen Hw Hle). lia.
Qed.

(** Under a positive target, with measured widths that are non-negative
    numbers (or missing, on a non-empty text), every iteration exits or
    shortens the candidate: the loop returns within [length text + 1]
    iterations. *)
Lemma shortenLoop_returns fuel : forall short shortened st,
  inv st -> (length short < fuel)%nat ->
  exists r st',
    shortenLoop measureFunction fuel (Fin target) className short shortened st
    = Some (r, st').
Proof.
  induction fuel as [|fuel IH]; intros short shortened st Hst Hfuel; [lia|].
  rewrite shortenLoop_unfold. cbv zeta. unfold fits.
  destruct (measure_sane short st Hst) as [Hst' [(w & Hw & Hw0) | [Hw Hne]]];
    rewrite Hw.
  - destruct (Num.lt (Fin w) (Fin target)) eqn:Hfit; [eauto|].
    apply NumFacts.Qlt_bool_false_iff in Hfit.
    assert (Hpos : (0 < w)%Q) by (eapply Qlt_le_trans; eassumption).
    destruct short as [|c short'] eqn:Eshort.
    + rewrite (keepChars_empty_wide w Hpos). simpl. eauto.
    + rewrite <- Eshort in *.
      assert (Hne : short <> []) by (rewrite Eshort; discriminate).
      assert (Hlen : (0 < length short)%nat) by (rewrite Eshort; simpl; lia).
      destruct (keepChars_retained short w target Hne Hpos Hfit) as (q & -> & Hq).
      set (k := Spec.retainedChars (length short) w target) in Hq.
      pose proof (retainedChars_bounds (length short) w target Hlen Hpos Hfit) as Hb.
      pose proof (retainedChars_drops (length short) w Hlen Hpos Hfit) as Hd.
      fold k in Hb, Hd.
      destruct (Num.lt (Fin q) (Num.of_Z 1)); [eauto|].
      rewrite (substring0_integer short q k Hq) by lia.
      apply IH; [exact Hst'|]. rewrite length_take. lia.
  - rewrite keepChars_nan. simpl Num.lt. cbv iota.
    apply IH; [exact Hst'|].
    destruct short; [congruence|]. simpl in *. lia.
Qed.

End Termination.

(** ** The shapes of the result *)
Section Shapes.
Context {St : Type}.
Variable measureFunction : jsstring -> jsstring -> St -> measured * St.
Variable width : number.
Variable className : jsstring.

(** C9. With a repeatable measure, a returned value is the input itself (and
    then the input fits), the single character ".", or a strict prefix of
    the input followed by "..."; so each of its characters occurs in the
    input or is a dot. And a value is returned, within [length text + 1]
    iterations, when the target is a positive number and the measured widths
    are non-negative numbers (or missing, on a non-empty text). *)
Theorem getShortened_shapes text st :
  repeatable measureFunction className ->
  (forall fuel r st',
     getShortened measureFunction fuel text width className st = Some (r, st') ->
     ((r = text /\ fits measureFunction width className text st = true)
      \/ r = js "."
      \/ (exists p rest, text = p ++ rest /\ rest <> [] /\ r = p ++ js "..."))
     /\ (forall c, c ∈ r -> c ∈ text \/ c = Str.dot))
  /\ (forall (target : Q) (inv : St -> Prop),
        width = Fin target -> (0 < target)%Q ->
        (forall s st0, inv st0 ->
           inv (measureFunction s className st0).2
           /\ (nonneg (widthOf (measureFunction s className st0).1)
               \/ (widthOf (measureFunction s className st0).1 = NaN /\ s <> []))) ->
        inv st ->
        exists r st',
          getShortened measureFunction (S (length text)) text width className st
          = Some (r, st')).
Proof.
  intros Hrep. split.
  - intros fuel r st' H. unfold getShortened in H.
    assert (Hshape :
      (r = text /\ fits measureFunction width className text st = true)
      \/ r = js "."
      \/ (exists p rest, text = p ++ rest /\ rest <> [] /\ r = p ++ js "...")).
    { destruct (fits measureFunction width className text st) eqn:Hfit.
      - left. destruct fuel as [|fuel]; [discriminate|].
        rewrite shortenLoop_unfold in H. cbv zeta in H. rewrite Hfit in H.
        inversion H. now rewrite app_nil_r.
      - right.
        apply (shortenLoop_strict measureFunction width className Hrep) in H
          as [H | (p & [rest Hp] & NE & H)]; [now left | right | exact Hfit].
        exists p, rest. split; [exact Hp|]. split; [|exact H].
        intros ->. apply NE. now rewrite Hp, app_nil_r. }
    split; [exact Hshape|].
    intros c Hc. destruct Hshape as [[-> _] | [-> | (p & rest & -> & _ & ->)]].
    + now left.
    + right. apply list_elem_of_singleton in Hc. exact Hc.
    + apply elem_of_app in Hc as [Hc | Hc].
      * left. apply elem_of_app. now left.
      * right. unfold Str.dot. simpl in Hc.
        repeat (apply elem_of_cons in Hc as [Hc | Hc]; [exact Hc|]).
        now apply elem_of_nil in Hc.
  - intros target inv -> Htarget Hsane Hst. unfold getShortened.
    apply (shortenLoop_returns measureFunction className target inv Htarget Hsane);
      [exact Hst | lia].
Qed.

End Shapes.

(** ** A fixed-pitch font *)
Section FixedPitch.
Context {St : Type}.
Variable measureFunction : jsstring -> jsstring -> St -> measured * St.
Variable className : jsstring.
Variables pitch target : Q.
Hypothesis pitch_pos : (0 < pitch)%Q.
Hypothesis target_pos : (0 < target)%Q.
Hypothesis fixed_pitch : forall s st,
  widthOf (measureFunction s className st).1
  = Fin (pitch * inject_Z (Z.of_nat (length s))).

Lemma fixed_pitch_reserve (len : nat) :
  (0 < len)%nat ->
  (target <= pitch * inject_Z (Z.of_nat len))%Q ->
  let k := Spec.retainedChars len (pitch * inject_Z (Z.of_nat len)) target in
  1 <= k -> (pitch * inject_Z (k + 3) <= target)%Q.
Proof.
  intros Hlen Hle k Hk. unfold k, Spec.retainedChars in *. cbv zeta in *.
  set (n := inject_Z (Z.of_nat len)) in *.
  assert (Hn : (0 < n)%Q) by now apply inject_nat_pos.
  set (x := ((pitch * n - target) / (pitch * n / n))%Q) in *.
  assert (Hx : (x == (pitch * n - target) / pitch)%Q).
  { unfold x. apply Qdiv_comp; [reflexivity|]. field.
    intros E. rewrite E in Hn. exact (Qlt_irrefl _ Hn). }
  rewrite Z.max_r in * by lia.
  replace (Z.of_nat len - Qceiling x - 3 + 3) with (Z.of_nat len - Qceiling x) by lia.
  unfold Z.sub. rewrite inject_Z_plus, inject_Z_opp. fold n.
  pose proof (Qle_ceiling x) as Hc. rewrite Hx in Hc at 1.
  assert (Hc' : (pitch * n - target <= inject_Z (Qceiling x) * pitch)%Q).
  { assert (E : (pitch * n - target == (pitch * n - target) / pitch * pitch)%Q).
    { field. intros E. rewrite E in pitch_pos. exact (Qlt_irrefl _ pitch_pos). }
    rewrite E at 1.
    apply Qmult_le_compat_r; [exact Hc | now apply Qlt_le_weak]. }
  lra.
Qed.

(** With glyphs of one width, a positive target, and once three glyphs of
    room are reserved, whatever the loop returns is the placeholder or fits.
    This is in the exact arithmetic of [Num]: in doubles a target one place
    below a multiple of the pitch can round the overlap and lose it. *)
Lemma shortenLoop_fixed_pitch_fits fuel : forall short shortened st r st',
  (shortened = true ->
   (pitch * inject_Z (Z.of_nat (length short) + 3) <= target)%Q) ->
  shortenLoop measureFunction fuel (Fin target) className short shortened st
  = Some (r, st') ->
  r = placeholder
  \/ (pitch * inject_Z (Z.of_nat (length r)) <= target)%Q.
Proof.
  induction fuel as [|fuel IH]; intros short shortened st r st' Hres H; [discriminate|].
  rewrite shortenLoop_unfold in H. cbv zeta in H. unfold fits in H.
  rewrite fixed_pitch in H.
  destruct (Num.lt _ (Fin target)) eqn:Hfit.
  - inversion H; subst. right. apply NumFacts.Qlt_bool_iff in Hfit.
    destruct shortened.
    + rewrite length_app. change (length ellipsis) with 3%nat.
      rewrite Nat2Z.inj_add. now apply Hres.
    + rewrite app_nil_r. now apply Qlt_le_weak.
  - apply NumFacts.Qlt_bool_false_iff in Hfit.
    destruct short as [|c short'] eqn:Eshort.
    + exfalso. simpl in Hfit. rewrite Qmult_0_r in Hfit.
      exact (Qlt_not_le _ _ target_pos Hfit).
    + rewrite <- Eshort in *.
      assert (Hne : short <> []) by (rewrite Eshort; discriminate).
      assert (Hlen : (0 < length short)%nat) by (rewrite Eshort; simpl; lia).
      set (w := (pitch * inject_Z (Z.of_nat (length short)))%Q) in *.
      assert (Hpos : (0 < w)%Q) by (eapply Qlt_le_trans; eassumption).
      destruct (keepChars_retained short w target Hne Hpos Hfit) as (q & Hq & Hqk).
      rewrite Hq in H.
      set (k := Spec.retainedChars (length short) w target) in *.
      pose proof (retainedChars_bounds (length short) w target Hlen Hpos Hfit) as Hb.
      fold k in Hb.
      destruct (Num.lt (Fin q) (Num.of_Z 1)) eqn:Hlt; [inversion H; now left|].
      assert (Hk : 1 <= k).
      { destruct (Z_lt_le_dec k 1) as [Hk|Hk]; [|exact Hk].
        apply (lt_one_iff q k Hqk) in Hk. congruence. }
      rewrite (substring0_integer short q k Hqk) in H by lia.
      apply IH in H; [exact H|]. intros _.
      rewrite length_take, Nat2Z.inj_min, Z2Nat.id, Z.min_l by lia.
      now apply fixed_pitch_reserve.
Qed.

End FixedPitch.

(** ** The measurement cache *)
Module CacheFacts.
Local Abbreviation measureInPage := measureText.
Import TextShortener.

Section Cache.
Variable getBBox : Page -> jsstring -> jsstring -> Size.

Lemma entry_insert this className classCache c t :
  entry {| _cache := <[className := classCache]> (_cache this) |} c t
  = if decide (className = c) then classCache !! t else entry this c t.
Proof.
  unfold entry. simpl. rewrite lookup_insert. now destruct (decide (className = c)).
Qed.

Lemma entry_default this className t :
  default ∅ (_cache this !! className) !! t = entry this className t.
Proof.
  unfold entry. destruct (_cache this !! className); [reflexivity|].
  simpl. apply lookup_empty.
Qed.

(** The three ways a call can go. *)
Lemma measureText_hit text className this page s :
  entry this className text = Some s ->
  exists this',
    measureText getBBox text className (this, page) = (Box s, (this', page))
    /\ forall c t, entry this' c t = entry this c t.
Proof.
  intros H. unfold measureText, lookup. rewrite entry_default, H.
  eexists; split; [reflexivity|]. intros c t. rewrite entry_insert.
  destruct (decide (className = c)) as [<-|]; [apply entry_default | reflexivity].
Qed.

Lemma measureText_foreign text className this page :
  entry this className text = None -> inherited text = true ->
  exists this',
    measureText getBBox text className (this, page) = (Foreign, (this', page))
    /\ forall c t, entry this' c t = entry this c t.
Proof.
  intros H Hin. unfold measureText, lookup. rewrite entry_default, H, Hin.
  eexists; split; [reflexivity|]. intros c t. rewrite entry_insert.
  destruct (decide (className = c)) as [<-|]; [apply entry_default | reflexivity].
Qed.

Lemma measureText_miss text className this page :
  entry this className text = None -> inherited text = false ->
  let fresh := measureInPage getBBox text className page in
  exists this',
    measureText getBBox text className (this, page)
    = (Box fresh.1, (this', fresh.2))
    /\ entry this' className text = Some fresh.1
    /\ forall c t, (c, t) <> (className, text) -> entry this' c t = entry this c t.
Proof.
  intros H Hin fresh. unfold measureText, lookup. rewrite entry_default, H, Hin.
  fold fresh. destruct fresh as [size page'] eqn:E. simpl.
  eexists; split; [reflexivity|]. split.
  - rewrite entry_insert, decide_True by reflexivity. apply lookup_insert_eq.
  - intros c t Hne. rewrite entry_insert.
    destruct (decide (className = c)) as [<-|]; [|reflexivity].
    rewrite lookup_insert_ne by congruence. apply entry_default.
Qed.

(** A call never removes or changes an entry, and never adds one under a
    name that [Object.prototype] defines. *)
Lemma measureText_keeps text className st c t s :
  entry st.1 c t = Some s ->
  entry (measureText getBBox text className st).2.1 c t = Some s.
Proof.
  destruct st as [this page]. cbn [fst snd]. intros H.
  destruct (entry this className text) as [s0|] eqn:E.
  - destruct (measureText_hit text className this page s0 E) as (this' & -> & Hsame).
    cbn [fst snd]. now rewrite Hsame.
  - destruct (inherited text) eqn:Hin.
    + destruct (measureText_foreign text className this page E Hin) as (this' & -> & Hsame).
      cbn [fst snd]. now rewrite Hsame.
    + destruct (measureText_miss text className this page E Hin) as (this' & -> & _ & Hsame).
      cbn [fst snd]. rewrite Hsame; [exact H|]. intros [= -> ->]. congruence.
Qed.

Lemma measureText_keeps_foreign text className st c t :
  inherited t = true -> entry st.1 c t = None ->
  entry (measureText getBBox text className st).2.1 c t = None.
Proof.
  destruct st as [this page]. cbn [fst snd]. intros Ht H.
  destruct (entry this className text) as [s0|] eqn:E.
  - destruct (measureText_hit text className this page s0 E) as (this' & -> & Hsame).
    cbn [fst snd]. now rewrite Hsame.
  - destruct (inherited text) eqn:Hin.
    + destruct (measureText_foreign text className this page E Hin) as (this' & -> & Hsame).
      cbn [fst snd]. now rewrite Hsame.
    + destruct (measureText_miss text className this page E Hin) as (this' & -> & _ & Hsame).
      cbn [fst snd]. rewrite Hsame; [exact H|]. intros [= -> ->]. congruence.
Qed.

Lemma measureAll_keeps calls : forall st c t s,
  entry st.1 c t = Some s -> entry (measureAll getBBox calls st).1 c t = Some s.
Proof.
  induction calls as [|[text className] calls IH]; intros st c t s H; [exact H|].
  simpl. apply IH. now apply measureText_keeps.
Qed.

Lemma measureAll_keeps_foreign calls : forall st c t,
  inherited t = true -> entry st.1 c t = None ->
  entry (measureAll getBBox calls st).1 c t = None.
Proof.
  induction calls as [|[text className] calls IH]; intros st c t Ht H; [exact H|].
  simpl. apply IH; [exact Ht|]. now apply measureText_keeps_foreign.
Qed.

(** What a call returns is decided by the entry it finds, and is stored. *)
Lemma measureText_result text className st :
  let r := measureText getBBox text className st in
  (exists s, r.1 = Box s /\ entry r.2.1 className text = Some s)
  \/ (r.1 = Foreign /\ inherited text = true /\ entry r.2.1 className text = None).
Proof.
  destruct st as [this page]. cbv zeta.
  destruct (entry this className text) as [s0|] eqn:E.
  - destruct (measureText_hit text className this page s0 E) as (this' & -> & Hsame).
    left. exists s0. cbn [fst snd]. now rewrite Hsame.
  - destruct (inherited text) eqn:Hin.
    + destruct (measureText_foreign text className this page E Hin) as (this' & -> & Hsame).
      right. cbn [fst snd]. now rewrite Hsame.
    + destruct (measureText_miss text className this page E Hin) as (this' & -> & Hnew & _).
      left. eexists. cbn [fst snd]. split; [reflexivity | exact Hnew].
Qed.

Lemma measureText_again text className st m :
  (exists s, m = Box s /\ entry st.1 className text = Some s)
  \/ (m = Foreign /\ inherited text = true /\ entry st.1 className text = None) ->
  (measureText getBBox text className st).1 = m
  /\ (measureText getBBox text className st).2.2 = st.2.
Proof.
  destruct st as [this page]. cbn [fst snd].
  intros [(s & -> & E) | (-> & Hin & E)].
  - destruct (measureText_hit text className this page s E) as (this' & -> & _).
    split; reflexivity.
  - destruct (measureText_foreign text className this page E Hin) as (this' & -> & _).
    split; reflexivity.
Qed.

(** C7. Once [measureText] has answered for a (className, text) pair, any
    later call with that pair, after any sequence of other calls, returns the
    same value without laying the text out again, and every entry of the
    cache is still there with the value it had. The class names are ordinary
    keys, as the model of [measureText] takes them to be. *)
Theorem measureText_cache_immutable text className st0 calls :
  inherited className = false ->
  Forall (fun call => inherited call.2 = false) calls ->
  let first := measureText getBBox text className st0 in
  let later := measureAll getBBox calls first.2 in
  let again := measureText getBBox text className later in
  again.1 = first.1
  /\ again.2.2 = later.2
  /\ (forall s, first.1 = Box s -> entry first.2.1 className text = Some s)
  /\ (forall c t s, entry first.2.1 c t = Some s ->
        entry later.1 c t = Some s /\ entry again.2.1 c t = Some s).
Proof.
  intros _ _ first later again.
  pose proof (measureText_result text className st0) as Hfirst.
  cbv zeta in Hfirst. fold first in Hfirst.
  assert (Hlater :
    (exists s, first.1 = Box s /\ entry later.1 className text = Some s)
    \/ (first.1 = Foreign /\ inherited text = true
        /\ entry later.1 className text = None)).
  { destruct Hfirst as [(s & E1 & E2) | (E1 & Hin & E2)].
    - left. exists s. split; [exact E1|]. now apply measureAll_keeps.
    - right. repeat split; try assumption. now apply measureAll_keeps_foreign. }
  destruct (measureText_again text className later first.1 Hlater) as [Hval Hpage].
  repeat split.
  - exact Hval.
  - exact Hpage.
  - intros s Hs. destruct Hfirst as [(s' & E1 & E2) | (E1 & _)]; [|congruence].
    rewrite E1 in Hs. now inversion Hs; subst.
  - now apply measureAll_keeps.
  - apply measureText_keeps. now apply measureAll_keeps.
Qed.

(** The cached measure is repeatable in the sense [getShortened] needs. *)
Lemma measureText_repeatable className :
  repeatable (measureText getBBox) className.
Proof.
  intros s st.
  pose proof (measureText_result s className st) as H. cbv zeta in H.
  destruct (measureText_again s className _ _ H) as [-> _]. reflexivity.
Qed.

End Cache.
End CacheFacts.

(** ** The cached loop under a positive target *)
Module LoopExits.

Section Exits.
Variable getBBox : Page -> jsstring -> jsstring -> Size.
Hypothesis bbox_nonneg : forall page c t, nonneg (width (getBBox page c t)).

Lemma measureInPage_nonneg text className page :
  nonneg (width (measureText getBBox text className page).1).
Proof.
  destruct text; [|apply bbox_nonneg].
  exists 0%Q. split; [reflexivity | apply Qle_refl].
Qed.

Lemma measureText_sane text className st :
  TextShortener.sizesNonneg st ->
  TextShortener.sizesNonneg (TextShortener.measureText getBBox text className st).2
  /\ (nonneg (widthOf (TextShortener.measureText getBBox text className st).1)
      \/ (widthOf (TextShortener.measureText getBBox text className st).1 = NaN
          /\ text <> [])).
Proof.
  destruct st as [this page]. unfold TextShortener.sizesNonneg. cbn [fst snd].
  intros Hinv.
  destruct (TextShortener.entry this className text) as [s0|] eqn:E.
  - destruct (CacheFacts.measureText_hit getBBox text className this page s0 E)
      as (this' & -> & Hsame).
    cbn [fst snd widthOf]. split; [|left; eapply Hinv; exact E].
    intros c t s. rewrite Hsame. apply Hinv.
  - destruct (TextShortener.inherited text) eqn:Hin.
    + destruct (CacheFacts.measureText_foreign getBBox text className this page E Hin)
        as (this' & -> & Hsame).
      cbn [fst snd widthOf]. split.
      * intros c t s. rewrite Hsame. apply Hinv.
      * right. split; [reflexivity|]. intros ->. vm_compute in Hin. discriminate.
    + destruct (CacheFacts.measureText_miss getBBox text className this page E Hin)
        as (this' & -> & Hnew & Hsame).
      cbn [fst snd widthOf]. split; [|left; apply measureInPage_nonneg].
      intros c t s Hs.
      destruct (decide ((c, t) = (className, text))) as [[= -> ->]|Hne].
      * rewrite Hnew in Hs. inversion Hs; subst. apply measureInPage_nonneg.
      * rewrite Hsame in Hs by exact Hne. eapply Hinv; exact Hs.
Qed.

(** Under a positive target, and a layout engine that reports non-negative
    widths, [TextShortener.getShortened] returns for every text. *)
Lemma getShortened_returns (target : Q) text className st :
  (0 < target)%Q -> TextShortener.sizesNonneg st ->
  exists r st',
    TextShortener.getShortened getBBox (S (length text)) text (Fin target)
      className st = Some (r, st').
Proof.
  intros Htarget Hst. unfold TextShortener.getShortened, getShortened.
  apply (shortenLoop_returns _ className target TextShortener.sizesNonneg Htarget);
    [|exact Hst | lia].
  intros s st0. apply measureText_sane.
Qed.

End Exits.

(** With the fixed-pitch sample font whatever comes back is "." or fits (in
    exact arithmetic, as above). *)
Lemma getShortened_monospace_fits (target : Q) fuel text className page r page' :
  (0 < target)%Q ->
  getShortened Sample.plainMeasure fuel text (Fin target) className page
  = Some (r, page') ->
  r = placeholder \/ (10 * inject_Z (Z.of_nat (length r)) <= target)%Q.
Proof.
  intros Htarget H. unfold getShortened in H.
  apply (shortenLoop_fixed_pitch_fits Sample.plainMeasure className 10 target)
    in H; [exact H | reflexivity | exact Htarget | | discriminate].
  intros s st. destruct s; reflexivity.
Qed.

End LoopExits.

(** ** Where the loop goes wrong *)
Module LoopDefects.

Section EmptyText.
Variable getBBox : Page -> jsstring -> jsstring -> Size.
Variable className : jsstring.

Local Abbreviation emptyIsZero := (TextShortener.emptyIsZero className).

Lemma measureText_empty st :
  emptyIsZero st ->
  widthOf (TextShortener.measureText getBBox [] className st).1 = Num.of_Z 0
  /\ emptyIsZero (TextShortener.measureText getBBox [] className st).2.
Proof.
  destruct st as [this page]. unfold TextShortener.emptyIsZero. cbn [fst snd]. intros Hinv.
  destruct (TextShortener.entry this className []) as [s0|] eqn:E.
  - destruct (CacheFacts.measureText_hit getBBox [] className this page s0 E)
      as (this' & -> & Hsame).
    cbn [fst snd widthOf]. split; [now apply Hinv|].
    intros s. rewrite Hsame, E. apply Hinv.
  - destruct (CacheFacts.measureText_miss getBBox [] className this page E eq_refl)
      as (this' & -> & Hnew & _).
    cbn [fst snd widthOf]. split; [reflexivity|].
    intros s. rewrite Hnew. now intros [= <-].
Qed.

(** With the empty text and a target that 0 is not below, the cached loop
    never exits. *)
Lemma getShortened_empty_stuck (width : number) fuel st :
  Num.lt (Num.of_Z 0) width = false -> emptyIsZero st ->
  TextShortener.getShortened getBBox fuel [] width className st = None.
Proof.
  intros Hw Hst. unfold TextShortener.getShortened, getShortened.
  apply (shortenLoop_empty_stuck _ className width emptyIsZero Hw); [|exact Hst].
  intros st0. apply measureText_empty.
Qed.

Lemma emptyIsZero_new page : emptyIsZero (TextShortener.new, page).
Proof. intros s. unfold TextShortener.entry. simpl. now rewrite lookup_empty. Qed.

End EmptyText.

(** C3 (fails). On the empty text with target width 0 the loop of
    [getShortened] never exits: whatever the number of iterations allowed,
    the run does not return. The candidate stays empty, its length does not
    decrease. *)
Theorem getShortened_empty_text_never_returns getBBox page fuel :
  TextShortener.getShortened getBBox fuel (js "") (Num.of_Z 0)
    Plugin.axisLabelsClass (TextShortener.new, page) = None.
Proof.
  apply getShortened_empty_stuck; [reflexivity | apply emptyIsZero_new].
Qed.

(** The same through the label formatter: an empty category on a chart whose
    plot area has no width. *)
Lemma formatter_empty_label_never_returns getBBox page fuel :
  Plugin.formatter getBBox fuel Plugin.Options.Undefined (Num.of_Z 0) [0%nat]
    (js "") (TextShortener.new, page) = None.
Proof.
  unfold Plugin.formatter. apply getShortened_empty_stuck;
    [reflexivity | apply emptyIsZero_new].
Qed.

(** C4 (fails). An iteration that keeps no character and does not return
    the placeholder: the label "constructor" is answered by the cache with a
    member of [Object.prototype], its width is [undefined], the candidate is
    not below the target 100, the characters to keep come out as [NaN], the
    test [keepChars < 1] is false, [substring(0, NaN)] is empty, and the
    function returns "..." where the claim has ".". The empty text under
    target 0 reaches the same [NaN] (and then never returns). *)
Theorem getShortened_keeps_nothing_without_placeholder getBBox page :
  let st := (TextShortener.new, page) in
  let label := js "constructor" in
  let w := widthOf (TextShortener.measureText getBBox label
                      Plugin.axisLabelsClass st).1 in
  let keep := keepChars label w (Fin 100) in
  Num.lt w (Fin 100) = false
  /\ keep = NaN
  /\ Num.lt keep (Num.of_Z 1) = false
  /\ Str.substring0 label keep = []
  /\ option_map fst
       (TextShortener.getShortened getBBox 2 label (Fin 100)
          Plugin.axisLabelsClass st)
     = Some (js "...")
  /\ keepChars (js "") (Num.of_Z 0) (Num.of_Z 0) = NaN
  /\ Str.substring0 (js "") NaN = js "".
Proof.
  intros st label w keep.
  assert (Hw : w = NaN) by reflexivity.
  assert (Hkeep : keep = NaN) by (unfold keep; rewrite Hw; reflexivity).
  rewrite Hkeep, Hw. repeat split; reflexivity.
Qed.

(** C1 (fails). With a proportional font the returned string can be wider
    than the target: "WWWWiiii" is 48 pixels wide, the target is 30; the
    kept prefix "WW" measures 20, the returned "WW..." measures 32. *)
Theorem getShortened_result_wider_than_target :
  exists st,
    TextShortener.getShortened Sample.proportional 2 (js "WWWWiiii")
      (Num.of_Z 30) Plugin.axisLabelsClass Sample.fresh
    = Some (js "WW...", st)
    /\ widthOf (TextShortener.measureText Sample.proportional (js "WW...")
                  Plugin.axisLabelsClass st).1 = Num.of_Z 32
    /\ Num.lt (Num.of_Z 30) (Num.of_Z 32) = true
    /\ bool_decide (js "WW..." = js ".") = false.
Proof.
  eexists. split; [vm_compute; reflexivity|].
  split; [vm_compute; reflexivity|]. split; reflexivity.
Qed.

End LoopDefects.

(** ** Tick skipping *)
Module TickFacts.
Import Plugin.Options.

Lemma indices_seq (categories : list jsstring) :
  imap (fun index category => index) categories = seq 0 (length categories).
Proof.
  rewrite (imap_seq_0 categories (fun i => i)). apply list_fmap_id.
Qed.

Lemma filter_seq_sorted (P : nat -> Prop) `{!forall i, Decision (P i)} n :
  forall a, StronglySorted Nat.lt (filter P (seq a n)).
Proof.
  induction n as [|n IH]; intros a; [constructor|].
  simpl. rewrite filter_cons. destruct (decide (P a)); [|apply IH].
  constructor; [apply IH|].
  apply Forall_forall. intros x Hx.
  apply list_elem_of_filter in Hx as [_ Hx]. apply elem_of_seq in Hx.
  unfold Nat.lt. lia.
Qed.

Lemma skip_stride labelsRotated plotWidth categories :
  Plugin.skip labelsRotated plotWidth categories
  = Spec.stride (truthy labelsRotated) plotWidth (length categories).
Proof.
  unfold Plugin.skip, Spec.stride, Plugin.perTickWidth.
  now destruct (truthy labelsRotated).
Qed.

Lemma tickPositioner_elem labelsRotated plotWidth categories i :
  i ∈ Plugin.tickPositioner labelsRotated plotWidth categories
  <-> (i < length categories)%nat
      /\ Num.is_zero (Num.rem (Num.of_nat i)
                        (Plugin.skip labelsRotated plotWidth categories)) = true.
Proof.
  unfold Plugin.tickPositioner. cbv zeta. rewrite indices_seq.
  rewrite list_elem_of_filter, elem_of_seq.
  split; intros [H1 H2]; (split; [first [exact H1 | exact H2 | lia] ..]).
Qed.

(** [i % k === 0] for a positive integer [k] is divisibility. *)
Lemma rem_zero_mod (i : nat) (k : Z) :
  0 < k ->
  Num.is_zero (Num.rem (Num.of_nat i) (Num.of_Z k)) = true
  <-> Z.of_nat i mod k = 0.
Proof.
  intros Hk. unfold Num.rem, Num.of_nat, Num.of_Z.
  rewrite NumFacts.Qzero_inject_Z by lia. unfold Num.is_zero, Num.Qtrunc.
  set (n := Z.of_nat i).
  assert (Hq : (0 <= inject_Z n / inject_Z k)%Q).
  { apply Qle_shift_div_l.
    - rewrite <- (Zlt_Qlt 0). exact Hk.
    - rewrite Qmult_0_l, <- (Zle_Qle 0). unfold n. lia. }
  apply NumFacts.Qlt_bool_false_iff in Hq. rewrite Hq.
  rewrite <- Zdiv_Qdiv. rewrite NumFacts.Qzero_iff.
  rewrite <- inject_Z_mult. unfold Qminus. rewrite <- inject_Z_opp, <- inject_Z_plus.
  change 0%Q with (inject_Z 0). rewrite inject_Z_injective.
  rewrite Z.mod_eq by lia. lia.
Qed.

(** C5. The tick positioner returns, in increasing order, exactly the
    category indices [i] with [i % skip === 0], where
    [skip = ceil(categoryCount / floor(plotWidth / perTickWidth))] and
    [perTickWidth] is 20 for rotated labels and 80 otherwise; when [skip] is
    a positive integer [k] these are the multiples of [k]. *)
Theorem tickPositioner_every_skip labelsRotated plotWidth categories :
  let skip := Spec.stride (truthy labelsRotated) plotWidth (length categories) in
  let indices := Plugin.tickPositioner labelsRotated plotWidth categories in
  StronglySorted Nat.lt indices
  /\ (forall i, i ∈ indices <->
        (i < length categories)%nat
        /\ Num.is_zero (Num.rem (Num.of_nat i) skip) = true)
  /\ (forall k, 0 < k -> skip = Num.of_Z k ->
      forall i, i ∈ indices <->
        (i < length categories)%nat /\ Z.of_nat i mod k = 0).
Proof.
  intros skip indices. unfold indices, skip. rewrite <- skip_stride.
  split; [|split].
  - unfold Plugin.tickPositioner. cbv zeta. rewrite indices_seq.
    apply filter_seq_sorted.
  - apply tickPositioner_elem.
  - intros k Hk E i. rewrite tickPositioner_elem, E, rem_zero_mod by exact Hk.
    reflexivity.
Qed.

(** With a plot width that is a non-negative number, the stride of a
    non-empty axis is [Infinity] or a positive integer. *)
Lemma skip_positive labelsRotated (plotWidth : Q) categories :
  (0 <= plotWidth)%Q -> categories <> [] ->
  Plugin.skip labelsRotated (Fin plotWidth) categories = PosInf
  \/ exists k, 0 < k /\ Plugin.skip labelsRotated (Fin plotWidth) categories = Num.of_Z k.
Proof.
  intros Hw Hne.
  assert (Hn : 0 < Z.of_nat (length categories))
    by (destruct categories; [congruence | simpl; lia]).
  unfold Plugin.skip. cbv zeta.
  assert (Hper : exists p, 0 < p /\ Plugin.perTickWidth labelsRotated = Num.of_Z p).
  { unfold Plugin.perTickWidth. destruct (truthy labelsRotated); eexists; (split; [|reflexivity]); lia. }
  destruct Hper as (p & Hp & ->).
  unfold Num.of_nat, Num.of_Z.
  rewrite NumFacts.div_Fin by (apply NumFacts.Qzero_inject_Z; lia).
  unfold Num.floor, Num.of_Z. set (ticks := Qfloor (plotWidth / inject_Z p)).
  assert (Hticks : 0 <= ticks).
  { unfold ticks. rewrite <- (Qfloor_Z 0). apply Qfloor_resp_le.
    apply Qle_shift_div_l; [rewrite <- (Zlt_Qlt 0); exact Hp|].
    now rewrite Qmult_0_l. }
  destruct (Num.Qzero (inject_Z ticks)) eqn:Ez.
  - left. unfold Num.div. rewrite Ez.
    rewrite NumFacts.Qzero_inject_Z by lia.
    assert (Num.Qlt_bool 0 (inject_Z (Z.of_nat (length categories))) = true) as ->.
    { apply NumFacts.Qlt_bool_iff. now rewrite <- (Zlt_Qlt 0). }
    reflexivity.
  - right. rewrite NumFacts.div_Fin by exact Ez. unfold Num.ceil, Num.of_Z.
    eexists. split; [|reflexivity].
    apply NumFacts.Qzero_false_iff in Ez.
    assert (Ht : 0 < ticks).
    { destruct (Z.eq_dec ticks 0) as [E|]; [|lia]. exfalso. apply Ez. now rewrite E. }
    set (x := (inject_Z (Z.of_nat (length categories)) / inject_Z ticks)%Q).
    assert (Hx : (0 < x)%Q).
    { apply Qlt_shift_div_l; [now rewrite <- (Zlt_Qlt 0)|].
      rewrite Qmult_0_l. now rewrite <- (Zlt_Qlt 0). }
    pose proof (Qle_ceiling x) as Hc.
    assert (Hc' : (0 < inject_Z (Qceiling x))%Q) by (eapply Qlt_le_trans; eassumption).
    now rewrite <- (Zlt_Qlt 0) in Hc'.
Qed.

Lemma rem_zero_first (skip : number) :
  skip = PosInf \/ (exists k, 0 < k /\ skip = Num.of_Z k) ->
  Num.is_zero (Num.rem (Num.of_nat 0) skip) = true.
Proof.
  intros [-> | (k & Hk & ->)]; [reflexivity|].
  apply (rem_zero_mod 0 k Hk). apply Z.mod_0_l. lia.
Qed.

(** C10, as amended. For a non-empty category list, and a plot width that
    is a non-negative number, index 0 is among the returned indices. *)
Theorem tickPositioner_keeps_first labelsRotated (plotWidth : Q) categories :
  (0 <= plotWidth)%Q -> categories <> [] ->
  0%nat ∈ Plugin.tickPositioner labelsRotated (Fin plotWidth) categories.
Proof.
  intros Hw Hne. apply tickPositioner_elem. split.
  - destruct categories; [congruence | simpl; lia].
  - apply rem_zero_first. now apply skip_positive.
Qed.

(** C10 as stated fails. Outside that range the first index is lost: a
    negative plot width gives a stride of 0, a plot width that is not a
    number gives a stride that is not one, and [0 % 0] and [0 % NaN] are
    [NaN]; three categories then get no tick at all. *)
Lemma tickPositioner_first_index_lost :
  Plugin.tickPositioner Undefined (Num.of_Z (-1000)) [js "a"; js "b"; js "c"] = []
  /\ bool_decide (0%nat ∈ Plugin.tickPositioner Undefined (Num.of_Z (-1000))
                            [js "a"; js "b"; js "c"]) = false
  /\ Plugin.skip Undefined (Num.of_Z (-1000)) [js "a"; js "b"; js "c"] = Num.of_Z 0
  /\ Plugin.tickPositioner Undefined NaN [js "a"; js "b"; js "c"] = [].
Proof. repeat split; reflexivity. Qed.

End TickFacts.

(** ** The wrapper of [init] *)
Module InitFacts.
Import Plugin.Options.

Lemma replaceSpaces_length s : length (Str.replaceSpaces s) = length s.
Proof. unfold Str.replaceSpaces. apply length_map. Qed.

Lemma replaceSpaces_lookup s j c :
  s !! j = Some c ->
  Str.replaceSpaces s !! j = Some (if N.eqb c Str.space then Str.nbsp else c).
Proof.
  intros H. unfold Str.replaceSpaces.
  change (map ?f s) with (f <$> s). now rewrite list_lookup_fmap, H.
Qed.

Lemma replaceSpaces_no_space s : Str.space ∉ Str.replaceSpaces s.
Proof.
  unfold Str.replaceSpaces. change (map ?f s) with (f <$> s).
  intros H. apply list_elem_of_fmap in H as (c & Hc & _).
  destruct (N.eqb c Str.space) eqn:E; [discriminate|].
  apply N.eqb_neq in E. congruence.
Qed.

Lemma replaceSpaces_id s : Str.space ∉ s -> Str.replaceSpaces s = s.
Proof.
  unfold Str.replaceSpaces. induction s as [|c s IH]; intros H; [reflexivity|].
  apply not_elem_of_cons in H as [Hc Hs]. simpl.
  rewrite IH by exact Hs.
  destruct (N.eqb c Str.space) eqn:E; [|reflexivity].
  apply N.eqb_eq in E. congruence.
Qed.

Section Init.
Context {Chart Axis : Type}.
Variable merge : axisOptions -> patch -> axisOptions.
Variable proceed : Chart -> axisOptions -> Axis -> Axis.

(** C8. When [isX] or [shortenLabels] is falsy the wrapper calls the
    original [init] with the chart and the options as they came, and leaves
    the options object as it was: nothing is merged into it. *)
Theorem init_inactive_passes_through chart options this :
  truthy (isX options) = false \/ truthy (shortenLabels options) = false ->
  Plugin.init merge proceed chart options this
  = Plugin.Proceeded (proceed chart options this) options.
Proof.
  intros H. unfold Plugin.init.
  assert ((negb (truthy (isX options)) || negb (truthy (shortenLabels options))) = true) as ->;
    [|reflexivity].
  destruct H as [-> | ->]; [reflexivity | apply orb_true_r].
Qed.

(** C6. When shortening is active, the options the original [init] receives
    carry the categories with every space replaced by a non-breaking space:
    same number of categories in the same order, each of the same length,
    no space left, and a category without spaces unchanged. The host's
    [merge] is taken to install the array it is given. *)
Theorem init_rewrites_categories chart options this cats :
  (forall o p, categories (merge o p) = Some (patchCategories p)) ->
  truthy (isX options) = true ->
  truthy (shortenLabels options) = true ->
  categories options = Some cats ->
  exists options' cats',
    Plugin.init merge proceed chart options this
    = Plugin.Proceeded (proceed chart options' this) options'
    /\ categories options' = Some cats'
    /\ length cats' = length cats
    /\ forall i s, cats !! i = Some s ->
         exists s',
           cats' !! i = Some s'
           /\ length s' = length s
           /\ (forall j c, s !! j = Some c ->
                 s' !! j = Some (if N.eqb c Str.space then Str.nbsp else c))
           /\ (Str.space ∉ s')
           /\ (Str.space ∉ s -> s' = s).
Proof.
  intros Hmerge HisX Hshorten Hcats. unfold Plugin.init.
  rewrite HisX, Hshorten, Hcats. cbn [negb orb].
  eexists _, _. split; [reflexivity|]. split; [apply Hmerge|].
  unfold Plugin.shortenPatch. cbn [patchCategories].
  split; [apply length_map|].
  intros i s Hs. exists (Str.replaceSpaces s). split.
  - change (map ?f cats) with (f <$> cats). now rewrite list_lookup_fmap, Hs.
  - split; [apply replaceSpaces_length|].
    split; [apply replaceSpaces_lookup|].
    split; [apply replaceSpaces_no_space | apply replaceSpaces_id].
Qed.

End Init.
End InitFacts.

(** ** Sample runs *)
Module Examples.
Import Plugin.Options.

Example shorten_ten_chars :
  getShortened Sample.plainMeasure 2 Sample.tenChars (Fin 50) (js "c") Sample.blank
  = Some (js "ab...",
          {| layouts := [(js "c", js "ab"); (js "c", Sample.tenChars)] |}).
Proof. reflexivity. Qed.

Example shorten_too_narrow :
  option_map fst
    (getShortened Sample.plainMeasure 1 Sample.tenChars (Fin 30) (js "c") Sample.blank)
  = Some (js ".").
Proof. reflexivity. Qed.

(** A label that names a member of [Object.prototype] is never measured. *)
Example shorten_inherited_name :
  TextShortener.getShortened Sample.proportional 2 (js "constructor") (Fin 100)
    Plugin.axisLabelsClass Sample.fresh
  = Some (js "...",
          ({| TextShortener._cache :=
                {[ Plugin.axisLabelsClass :=
                     {[ js "" := {| height := Num.of_Z 0; width := Num.of_Z 0 |} ]} ]} |},
           Sample.blank)).
Proof. vm_compute. reflexivity. Qed.

Example ticks_horizontal :
  Plugin.tickPositioner Undefined (Fin 400) (replicate 12 (js "a"))
  = [0; 3; 6; 9]%nat.
Proof. reflexivity. Qed.

Example ticks_rotated :
  Plugin.tickPositioner (Number (Fin (-45))) (Fin 100) (replicate 12 (js "a"))
  = [0; 3; 6; 9]%nat.
Proof. reflexivity. Qed.

Example ticks_narrow_plot :
  Plugin.tickPositioner Undefined (Fin 40) (replicate 12 (js "a")) = [0%nat].
Proof. reflexivity. Qed.

Example categories_rewritten :
  patchCategories (Plugin.shortenPatch Undefined [js "New York"; js "Oslo"])
  = [[78; 101; 119; 160; 89; 111; 114; 107]%N; js "Oslo"].
Proof. reflexivity. Qed.

End Examples.

(** ** The statements at concrete inputs *)
Module Witnesses.
Import Plugin.Options.

Import Sample.

Lemma plainMeasure_repeatable className : repeatable plainMeasure className.
Proof. intros s st. destruct s; reflexivity. Qed.

(** "ab" is 20 pixels wide and fits in 100. *)
Lemma getShortened_fitting_unchanged_witness :
  getShortened plainMeasure 1 (js "ab") (Num.of_Z 100) (js "c") Sample.blank
  = Some (js "ab", (plainMeasure (js "ab") (js "c") Sample.blank).2).
Proof.
  exact (proj1 (getShortened_fitting_unchanged plainMeasure (Num.of_Z 100)
                  (js "c") 0 (js "ab") Sample.blank eq_refl)).
Defined.

Lemma getShortened_shapes_witness :
  (exists p rest, tenChars = p ++ rest /\ rest <> [] /\ js "ab..." = p ++ js "...")
  /\ (exists r st',
        getShortened plainMeasure 11 tenChars (Fin 50) (js "c") Sample.blank
        = Some (r, st')).
Proof.
  pose proof (getShortened_shapes plainMeasure (Fin 50) (js "c") tenChars
                Sample.blank (plainMeasure_repeatable (js "c"))) as [Hshape Hret].
  split.
  - destruct (proj1 (Hshape 2%nat (js "ab...") _ eq_refl)) as [[E _] | [E | H]].
    + discriminate E.
    + discriminate E.
    + exact H.
  - apply (Hret 50%Q (fun _ => True) eq_refl eq_refl); [|exact I].
    intros s st0 _. split; [exact I|]. left.
    destruct s; eexists; (split; [reflexivity|]); unfold Qle; simpl; lia.
Defined.

Lemma measureText_cache_immutable_witness :
  let first := TextShortener.measureText Sample.proportional (js "Wi") (js "c") Sample.fresh in
  let later := TextShortener.measureAll Sample.proportional
                 [(js "W", js "c"); (js "Wi", js "d")] first.2 in
  (TextShortener.measureText Sample.proportional (js "Wi") (js "c") later).1 = first.1.
Proof.
  refine (proj1 (CacheFacts.measureText_cache_immutable Sample.proportional
                   (js "Wi") (js "c") Sample.fresh
                   [(js "W", js "c"); (js "Wi", js "d")] eq_refl _)).
  repeat constructor.
Defined.

Lemma tickPositioner_keeps_first_witness :
  0%nat ∈ Plugin.tickPositioner Undefined (Fin 400) [js "a"; js "b"; js "c"].
Proof.
  apply (TickFacts.tickPositioner_keeps_first Undefined 400 [js "a"; js "b"; js "c"]).
  - unfold Qle. simpl. lia.
  - discriminate.
Defined.

Lemma init_inactive_passes_through_witness :
  Plugin.init Plugin.deepMerge keepAxis tt yAxis 0%nat
  = Plugin.Proceeded (keepAxis tt yAxis 0%nat) yAxis.
Proof.
  apply (InitFacts.init_inactive_passes_through Plugin.deepMerge keepAxis tt yAxis 0%nat).
  left. reflexivity.
Defined.

Lemma init_rewrites_categories_witness :
  exists options' cats',
    Plugin.init Plugin.deepMerge keepAxis tt xAxis 0%nat
    = Plugin.Proceeded (keepAxis tt options' 0%nat) options'
    /\ categories options' = Some cats'
    /\ length cats' = 2%nat.
Proof.
  destruct (InitFacts.init_rewrites_categories Plugin.deepMerge keepAxis tt xAxis
              0%nat [js "a b"; js "cd"] (fun o p => eq_refl) eq_refl eq_refl eq_refl)
    as (options' & cats' & H1 & H2 & H3 & _).
  exists options', cats'. repeat split; assumption.
Defined.

End Witnesses.

(** * Further properties *)

(** ** What the loop guarantees about its result *)
Section LoopGuarantees.
Context {St : Type}.
Variable measureFunction : jsstring -> jsstring -> St -> measured * St.
Variable className : jsstring.



(** X2. With glyphs that are all the same whole number of pixels wide, and
    a target that is a positive whole number of pixels (the formatter rounds
    it), all below 2^53 where doubles are exact on whole numbers: the
    measured width of whatever is returned is at most the target, unless it
    is the placeholder. *)
Theorem getShortened_fixed_pitch_fits (pitch target : Z) fuel text st r st' :
  0 < pitch -> 0 < target < 2 ^ 53 ->
  pitch * Z.of_nat (length text) < 2 ^ 53 ->
  (forall s st0,
     widthOf (measureFunction s className st0).1
     = Num.of_Z (pitch * Z.of_nat (length s))) ->
  getShortened measureFunction fuel text (Num.of_Z target) className st
  = Some (r, st') ->
  r = js "."
  \/ exists w, widthOf (measureFunction r className st').1 = Num.of_Z w
               /\ w <= target.
Proof.
  intros Hpitch [Htarget _] _ Hfixed H. unfold getShortened in H.
  assert (Hfixed' : forall s st0,
            widthOf (measureFunction s className st0).1
            = Fin (inject_Z pitch * inject_Z (Z.of_nat (length s)))).
  { intros s st0. rewrite Hfixed. reflexivity. }
  apply (shortenLoop_fixed_pitch_fits measureFunction className (inject_Z pitch)
           (inject_Z target)) in H; [| | |exact Hfixed'|discriminate].
  - destruct H as [H | H]; [now left|]. right.
    exists (pitch * Z.of_nat (length r)). split; [apply Hfixed|].
    rewrite <- inject_Z_mult, <- Zle_Qle in H. exact H.
  - now rewrite <- (Zlt_Qlt 0).
  - now rewrite <- (Zlt_Qlt 0).
Qed.

Lemma retainedChars_nonpositive_target (len : nat) (w target : Q) :
  (0 < len)%nat -> (0 < w)%Q -> (target <= 0)%Q ->
  Spec.retainedChars len w target = 0.
Proof.
  intros Hlen Hw Ht. unfold Spec.retainedChars. cbv zeta.
  set (n := inject_Z (Z.of_nat len)).
  assert (Hn : (0 < n)%Q) by now apply inject_nat_pos.
  assert (Hx : (n <= (w - target) / (w / n))%Q).
  { apply Qle_shift_div_l; [now apply average_pos|].
    assert (E : (n * (w / n) == w)%Q).
    { field. intros E. rewrite E in Hn. exact (Qlt_irrefl _ Hn). }
    rewrite E. lra. }
  assert (Hc : Z.of_nat len <= Qceiling ((w - target) / (w / n))).
  { rewrite <- (Qceiling_Z (Z.of_nat len)). now apply Qceiling_resp_le. }
  fold n. lia.
Qed.

(** X3. Under a target that is zero or negative, a non-empty text of
    positive measured width degrades to "." on the first iteration. *)
Theorem getShortened_nonpositive_target (w target : Q) fuel text st :
  text <> [] ->
  widthOf (measureFunction text className st).1 = Fin w ->
  (0 < w)%Q -> (target <= 0)%Q ->
  getShortened measureFunction (S fuel) text (Fin target) className st
  = Some (js ".", (measureFunction text className st).2).
Proof.
  intros Hne Hw Hpos Ht. unfold getShortened.
  assert (Hle : (target <= w)%Q) by lra.
  assert (Hlen : (0 < length text)%nat) by (destruct text; [congruence | simpl; lia]).
  rewrite shortenLoop_unfold. cbv zeta. unfold fits. rewrite Hw.
  assert (Num.lt (Fin w) (Fin target) = false) as ->
    by now apply NumFacts.Qlt_bool_false_iff.
  destruct (keepChars_retained text w target Hne Hpos Hle) as (q & -> & Hq).
  rewrite (retainedChars_nonpositive_target _ w target Hlen Hpos Ht) in Hq.
  assert (Num.lt (Fin q) (Num.of_Z 1) = true) as ->; [|reflexivity].
  apply (lt_one_iff q 0 Hq). lia.
Qed.

End LoopGuarantees.

(** ** The length of the result *)
Section ResultLength.
Context {St : Type}.
Variable measureFunction : jsstring -> jsstring -> St -> measured * St.
Variable className : jsstring.
Variable target : Q.
Variable inv : St -> Prop.
Hypothesis target_pos : (0 < target)%Q.
Hypothesis measure_sane : forall s st,
  inv st ->
  inv (measureFunction s className st).2
  /\ (nonneg (widthOf (measureFunction s className st).1)
      \/ (widthOf (measureFunction s className st).1 = NaN /\ s <> [])).

Lemma shortenLoop_length fuel : forall short shortened st r st',
  inv st ->
  shortenLoop measureFunction fuel (Fin target) className short shortened st
  = Some (r, st') ->
  (length r <= Nat.max 3 (length short + (if shortened then 3 else 0)))%nat.
Proof.
  induction fuel as [|fuel IH]; intros short shortened st r st' Hst H; [discriminate|].
  rewrite shortenLoop_unfold in H. cbv zeta in H. unfold fits in H.
  destruct (measure_sane short st Hst) as [Hst' [(w & Hw & Hw0) | [Hw Hne]]];
    rewrite Hw in H.
  - destruct (Num.lt (Fin w) (Fin target)) eqn:Hfit.
    { inversion H; subst. rewrite length_app.
      destruct shortened; simpl; lia. }
    apply NumFacts.Qlt_bool_false_iff in Hfit.
    assert (Hpos : (0 < w)%Q) by (eapply Qlt_le_trans; eassumption).
    destruct short as [|c short'] eqn:Eshort.
    + rewrite (keepChars_empty_wide target w Hpos) in H. simpl in H.
      inversion H; subst. simpl. lia.
    + rewrite <- Eshort in *.
      assert (Hne : short <> []) by (rewrite Eshort; discriminate).
      assert (Hlen : (0 < length short)%nat) by (rewrite Eshort; simpl; lia).
      destruct (keepChars_retained short w target Hne Hpos Hfit) as (q & Hq & Hqk).
      rewrite Hq in H.
      set (k := Spec.retainedChars (length short) w target) in Hqk.
      pose proof (retainedChars_bounds (length short) w target Hlen Hpos Hfit) as Hb.
      pose proof (dropped_nonneg (length short) w target Hlen Hpos Hfit) as Hd.
      assert (Hk3 : k <= Z.max 0 (Z.of_nat (length short) - 3)).
      { unfold k, Spec.retainedChars. cbv zeta. lia. }
      fold k in Hb.
      destruct (Num.lt (Fin q) (Num.of_Z 1)) eqn:Hlt.
      { inversion H; subst. simpl. lia. }
      assert (Hk : 1 <= k).
      { destruct (Z_lt_le_dec k 1) as [Hk|Hk]; [|exact Hk].
        apply (lt_one_iff q k Hqk) in Hk. congruence. }
      rewrite (substring0_integer short q k Hqk) in H by lia.
      apply IH in H; [|exact Hst']. rewrite length_take in H. lia.
  - rewrite keepChars_nan in H. simpl Num.lt in H. cbv iota in H.
    apply IH in H; [|exact Hst'].
    unfold Str.substring0 in H. simpl in H. lia.
Qed.

End ResultLength.

(** ** Every state of the shortener *)
Module ShortenerStates.

Section States.
Variable getBBox : Page -> jsstring -> jsstring -> Size.

Lemma measureAll_invariant (P : TextShortener.t * Page -> Prop) :
  (forall text className st,
     P st -> P (TextShortener.measureText getBBox text className st).2) ->
  forall calls st, P st -> P (TextShortener.measureAll getBBox calls st).
Proof.
  intros Hstep. induction calls as [|[text className] calls IH]; intros st Hst;
    [exact Hst|].
  simpl. apply IH. now apply Hstep.
Qed.

Lemma reachable_invariant (P : TextShortener.t * Page -> Prop) :
  (forall page, P (TextShortener.new, page)) ->
  (forall text className st,
     P st -> P (TextShortener.measureText getBBox text className st).2) ->
  forall st, TextShortener.reachable getBBox st -> P st.
Proof.
  intros Hnew Hstep st (calls & page & _ & ->).
  apply measureAll_invariant; [exact Hstep | apply Hnew].
Qed.

Lemma entry_new className text :
  TextShortener.entry TextShortener.new className text = None.
Proof. unfold TextShortener.entry. simpl. now rewrite lookup_empty. Qed.

Lemma reachable_sizesNonneg st :
  (forall page c t, nonneg (width (getBBox page c t))) ->
  TextShortener.reachable getBBox st -> TextShortener.sizesNonneg st.
Proof.
  intros Hbbox. apply reachable_invariant.
  - intros page c t s. cbn [fst]. now rewrite entry_new.
  - intros text className st0 Hst0.
    now apply (LoopExits.measureText_sane getBBox Hbbox).
Qed.

Lemma measureText_keeps_emptyIsZero className text0 className0 st :
  TextShortener.emptyIsZero className st ->
  TextShortener.emptyIsZero className
    (TextShortener.measureText getBBox text0 className0 st).2.
Proof.
  destruct st as [this page]. unfold TextShortener.emptyIsZero. cbn [fst snd].
  intros Hinv s.
  destruct (TextShortener.entry this className0 text0) as [s0|] eqn:E.
  - destruct (CacheFacts.measureText_hit getBBox text0 className0 this page s0 E)
      as (this' & -> & Hsame).
    cbn [fst snd]. rewrite Hsame. apply Hinv.
  - destruct (TextShortener.inherited text0) eqn:Hin.
    + destruct (CacheFacts.measureText_foreign getBBox text0 className0 this page E Hin)
        as (this' & -> & Hsame).
      cbn [fst snd]. rewrite Hsame. apply Hinv.
    + destruct (CacheFacts.measureText_miss getBBox text0 className0 this page E Hin)
        as (this' & -> & Hnew & Hsame).
      cbn [fst snd].
      destruct (decide ((className, @nil N) = (className0, text0))) as [[= <- <-]|Hne].
      * rewrite Hnew. now intros [= <-].
      * rewrite Hsame by exact Hne. apply Hinv.
Qed.

Lemma reachable_emptyIsZero className st :
  TextShortener.reachable getBBox st -> TextShortener.emptyIsZero className st.
Proof.
  apply reachable_invariant.
  - intros page s. cbn [fst]. now rewrite entry_new.
  - intros text0 className0 st0. apply measureText_keeps_emptyIsZero.
Qed.

Lemma reachable_no_foreign_entry className text st :
  TextShortener.inherited text = true ->
  TextShortener.reachable getBBox st ->
  TextShortener.entry st.1 className text = None.
Proof.
  intros Hin. revert st.
  apply (reachable_invariant
           (fun st => TextShortener.entry st.1 className text = None)).
  - intros page. apply entry_new.
  - intros text0 className0 st0 Hst0.
    now apply CacheFacts.measureText_keeps_foreign.
Qed.

(** X4. In every state of the shortener, under a positive target and a
    layout engine that reports non-negative widths, [getShortened] returns
    within [length text + 1] iterations, and what it returns is not longer
    than the text, or than three characters. *)
Theorem getShortened_returns_no_longer (target : Q) text className st :
  (forall page c t, nonneg (width (getBBox page c t))) ->
  (0 < target)%Q ->
  TextShortener.inherited className = false ->
  TextShortener.reachable getBBox st ->
  exists r st',
    TextShortener.getShortened getBBox (S (length text)) text (Fin target)
      className st = Some (r, st')
    /\ (length r <= Nat.max 3 (length text))%nat.
Proof.
  intros Hbbox Htarget _ Hst.
  pose proof (reachable_sizesNonneg st Hbbox Hst) as Hsizes.
  destruct (LoopExits.getShortened_returns getBBox Hbbox target text className st
              Htarget Hsizes) as (r & st' & H).
  exists r, st'. split; [exact H|].
  unfold TextShortener.getShortened, getShortened in H.
  apply (shortenLoop_length (TextShortener.measureText getBBox) className target
           TextShortener.sizesNonneg Htarget) in H; [|intros s st0|exact Hsizes].
  - rewrite Nat.add_0_r in H. exact H.
  - now apply (LoopExits.measureText_sane getBBox Hbbox).
Qed.

(** X5. An undefined target: with [NaN] for the width no text at all is
    ever returned, the loop empties the candidate and then stays on it. *)
Theorem getShortened_nan_target_never_returns text className st fuel :
  TextShortener.inherited className = false ->
  TextShortener.reachable getBBox st ->
  TextShortener.getShortened getBBox fuel text NaN className st = None.
Proof.
  intros _ Hst. unfold TextShortener.getShortened, getShortened.
  destruct fuel as [|fuel]; [reflexivity|].
  rewrite shortenLoop_unfold. cbv zeta. unfold fits.
  set (m := TextShortener.measureText getBBox text className st).
  assert (Num.lt (widthOf m.1) NaN = false) as -> by (destruct (widthOf m.1); reflexivity).
  assert (keepChars text (widthOf m.1) NaN = NaN) as ->
    by (destruct (widthOf m.1); reflexivity).
  simpl Num.lt. cbv iota.
  change (Str.substring0 text NaN) with (@nil N).
  apply (shortenLoop_empty_stuck _ className NaN
           (TextShortener.emptyIsZero className) eq_refl).
  - intros st0. apply LoopDefects.measureText_empty.
  - unfold m. apply measureText_keeps_emptyIsZero.
    now apply reachable_emptyIsZero.
Qed.

(** X6. A label that is the name of a member of [Object.prototype] (such as
    "constructor") is never measured: under a target above 0 the result is
    "...", and nothing is laid out. *)
Theorem getShortened_inherited_name (width : number) text className st fuel :
  TextShortener.inherited text = true ->
  Num.lt (Num.of_Z 0) width = true ->
  TextShortener.inherited className = false ->
  TextShortener.reachable getBBox st ->
  exists st',
    TextShortener.getShortened getBBox (S (S fuel)) text width className st
    = Some (js "...", st')
    /\ st'.2 = st.2.
Proof.
  intros Hin Hwidth _ Hst.
  pose proof (reachable_no_foreign_entry className text st Hin Hst) as Hentry.
  pose proof (reachable_emptyIsZero className st Hst) as Hempty.
  destruct st as [this page]. cbn [fst snd] in *.
  unfold TextShortener.getShortened, getShortened.
  rewrite shortenLoop_unfold. cbv zeta. unfold fits.
  destruct (CacheFacts.measureText_foreign getBBox text className this page Hentry Hin)
    as (this' & E & Hsame).
  rewrite E. cbn [fst snd widthOf].
  assert (Num.lt NaN width = false) as -> by reflexivity.
  rewrite keepChars_nan. simpl Num.lt. cbv iota.
  change (Str.substring0 text NaN) with (@nil N).
  rewrite shortenLoop_unfold. cbv zeta. unfold fits.
  assert (Hempty' : TextShortener.emptyIsZero className (this', page)).
  { intros s. cbn [fst]. rewrite Hsame. apply Hempty. }
  destruct (LoopDefects.measureText_empty getBBox className (this', page) Hempty')
    as [Hw _].
  rewrite Hw, Hwidth. eexists. split; [reflexivity|].
  clear Hw. destruct (TextShortener.entry this' className []) as [s0|] eqn:E0.
  - destruct (CacheFacts.measureText_hit getBBox [] className this' page s0 E0)
      as (this'' & -> & _). reflexivity.
  - destruct (CacheFacts.measureText_miss getBBox [] className this' page E0 eq_refl)
      as (this'' & -> & _). reflexivity.
Qed.

End States.
End ShortenerStates.

(** ** What the cache lays out *)
Module CacheLayouts.

Section Layouts.
Variable getBBox : Page -> jsstring -> jsstring -> Size.

(** A call lays out nothing, or lays out its own non-empty text, for which
    the cache had no entry and now has one. *)
Lemma measureText_layouts text className st :
  (TextShortener.measureText getBBox text className st).2.2 = st.2
  \/ (text <> []
      /\ TextShortener.entry st.1 className text = None
      /\ is_Some (TextShortener.entry
                    (TextShortener.measureText getBBox text className st).2.1
                    className text)
      /\ (TextShortener.measureText getBBox text className st).2.2
         = {| layouts := (className, text) :: layouts st.2 |}).
Proof.
  destruct st as [this page]. cbn [fst snd].
  destruct (TextShortener.entry this className text) as [s0|] eqn:E.
  - destruct (CacheFacts.measureText_hit getBBox text className this page s0 E)
      as (this' & -> & _). now left.
  - destruct (TextShortener.inherited text) eqn:Hin.
    + destruct (CacheFacts.measureText_foreign getBBox text className this page E Hin)
        as (this' & -> & _). now left.
    + destruct (CacheFacts.measureText_miss getBBox text className this page E Hin)
        as (this' & -> & Hnew & _). cbn [fst snd].
      destruct text as [|c text']; [left; destruct page; reflexivity|].
      right. split; [discriminate|]. split; [reflexivity|].
      split; [rewrite Hnew; eauto | reflexivity].
Qed.

Lemma measureText_loggedOnce text className st :
  TextShortener.loggedOnce st ->
  TextShortener.loggedOnce (TextShortener.measureText getBBox text className st).2.
Proof.
  intros [Hnodup Hentries].
  assert (Hkeep : forall c t,
            is_Some (TextShortener.entry st.1 c t) ->
            is_Some (TextShortener.entry
                       (TextShortener.measureText getBBox text className st).2.1 c t)).
  { intros c t [s Hs]. exists s. now apply CacheFacts.measureText_keeps. }
  destruct (measureText_layouts text className st)
    as [E | (Hne & Hnone & Hsome & E)]; unfold TextShortener.loggedOnce; rewrite E.
  - split; [exact Hnodup|]. intros c t Hin. apply Hkeep. now apply Hentries.
  - cbn [layouts]. split.
    + constructor; [|exact Hnodup]. intros Hin.
      apply Hentries in Hin as [s Hs]. congruence.
    + intros c t Hin. apply elem_of_cons in Hin as [[= -> ->] | Hin];
        [exact Hsome|]. apply Hkeep. now apply Hentries.
Qed.

Lemma measureAll_logged calls : forall st c t,
  (c, t) ∈ layouts (TextShortener.measureAll getBBox calls st).2 ->
  (c, t) ∈ layouts st.2 \/ ((t, c) ∈ calls /\ t <> []).
Proof.
  induction calls as [|[text className] calls IH]; intros st c t Hin; [now left|].
  simpl in Hin. apply IH in Hin as [Hin | [Hin Hne]].
  - destruct (measureText_layouts text className st) as [E | (Hne & _ & _ & E)];
      rewrite E in Hin; [now left|].
    cbn [layouts] in Hin. apply elem_of_cons in Hin as [[= -> ->] | Hin];
      [right; split; [left | exact Hne] | now left].
  - right. split; [now right | exact Hne].
Qed.

(** X7. Memoisation: starting from a new shortener and an empty log, over
    any sequence of [measureText] calls no (className, text) pair is laid
    out twice, and only non-empty texts that were asked for are laid out. *)
Theorem measureAll_lays_out_once calls :
  Forall (fun call => TextShortener.inherited call.2 = false) calls ->
  let st := TextShortener.measureAll getBBox calls
              (TextShortener.new, {| layouts := [] |}) in
  NoDup (layouts st.2)
  /\ forall c t, (c, t) ∈ layouts st.2 -> (t, c) ∈ calls /\ t <> [].
Proof.
  intros _ st. split.
  - apply (ShortenerStates.measureAll_invariant getBBox TextShortener.loggedOnce).
    + intros text className st0. apply measureText_loggedOnce.
    + split; [constructor|]. intros c t Hin. now apply elem_of_nil in Hin.
  - intros c t Hin. apply measureAll_logged in Hin as [Hin | Hin]; [|exact Hin].
    now apply elem_of_nil in Hin.
Qed.

(** X8. A call changes no entry but the one of its own (className, text)
    pair. *)
Theorem measureText_changes_own_entry_only text className st c t :
  TextShortener.inherited className = false ->
  (c, t) <> (className, text) ->
  TextShortener.entry (TextShortener.measureText getBBox text className st).2.1 c t
  = TextShortener.entry st.1 c t.
Proof.
  intros _ Hne. destruct st as [this page]. cbn [fst snd].
  destruct (TextShortener.entry this className text) as [s0|] eqn:E.
  - destruct (CacheFacts.measureText_hit getBBox text className this page s0 E)
      as (this' & -> & Hsame). apply Hsame.
  - destruct (TextShortener.inherited text) eqn:Hin.
    + destruct (CacheFacts.measureText_foreign getBBox text className this page E Hin)
        as (this' & -> & Hsame). apply Hsame.
    + destruct (CacheFacts.measureText_miss getBBox text className this page E Hin)
        as (this' & -> & _ & Hsame). now apply Hsame.
Qed.

(** The loop only measures prefixes of its candidate. *)
Lemma shortenLoop_lays_out_prefixes (width : number) className fuel :
  forall short shortened st r st',
  shortenLoop (TextShortener.measureText getBBox) fuel width className
    short shortened st = Some (r, st') ->
  exists added,
    layouts st'.2 = added ++ layouts st.2
    /\ Forall (fun e => e.1 = className /\ e.2 `prefix_of` short /\ e.2 <> []) added
    /\ (length added <= fuel)%nat.
Proof.
  induction fuel as [|fuel IH]; intros short shortened st r st' H; [discriminate|].
  rewrite shortenLoop_unfold in H. cbv zeta in H.
  set (st1 := (TextShortener.measureText getBBox short className st).2) in H.
  assert (Hfirst : exists added,
             layouts st1.2 = added ++ layouts st.2
             /\ Forall (fun e => e.1 = className /\ e.2 `prefix_of` short /\ e.2 <> []) added
             /\ (length added <= 1)%nat).
  { destruct (measureText_layouts short className st) as [E | (Hne & _ & _ & E)];
      fold st1 in E; rewrite E.
    - exists []. split; [reflexivity|]. split; [constructor | simpl; lia].
    - exists [(className, short)]. split; [reflexivity|]. split; [|simpl; lia].
      constructor; [|constructor]. cbn [fst snd]. split; [reflexivity|].
      split; [reflexivity | exact Hne]. }
  destruct Hfirst as (added1 & E1 & Hall1 & Hlen1).
  destruct (fits _ _ _ short st).
  { inversion H; subst. exists added1. split; [exact E1|]. split; [exact Hall1 | lia]. }
  destruct (Num.lt _ _).
  { inversion H; subst. exists added1. split; [exact E1|]. split; [exact Hall1 | lia]. }
  apply IH in H as (added2 & E2 & Hall2 & Hlen2).
  exists (added2 ++ added1). split; [|split].
  - rewrite E2, E1. now rewrite app_assoc.
  - apply Forall_app. split; [|exact Hall1].
    eapply Forall_impl; [exact Hall2|]. intros e (He1 & He2 & He3).
    split; [exact He1|]. split; [|exact He3].
    etrans; [exact He2 | apply substring0_prefix].
  - rewrite length_app. lia.
Qed.

(** X9. A run of [getShortened] lays out nothing but non-empty prefixes of
    the text, under the class name it was given, at most one per
    iteration; the log it found is kept. *)
Theorem getShortened_lays_out_prefixes (width : number) fuel text className st r st' :
  TextShortener.inherited className = false ->
  TextShortener.getShortened getBBox fuel text width className st = Some (r, st') ->
  exists added,
    layouts st'.2 = added ++ layouts st.2
    /\ Forall (fun e => e.1 = className /\ e.2 `prefix_of` text /\ e.2 <> []) added
    /\ (length added <= fuel)%nat.
Proof.
  intros _ H. unfold TextShortener.getShortened, getShortened in H.
  now apply shortenLoop_lays_out_prefixes in H.
Qed.

End Layouts.
End CacheLayouts.

(** ** Caching over a stable layout engine *)
Module CacheTransparency.

Section Stable.
Variable getBBox : Page -> jsstring -> jsstring -> Size.
Hypothesis stable : pageIndependent getBBox.

Lemma measureInPage_stable text className page page' :
  (measureText getBBox text className page).1
  = (measureText getBBox text className page').1.
Proof. destruct text; [reflexivity|]. apply stable. Qed.

Lemma reachable_coherent st :
  TextShortener.reachable getBBox st ->
  forall c t s page,
    TextShortener.entry st.1 c t = Some s ->
    s = (measureText getBBox t c page).1.
Proof.
  revert st.
  apply (ShortenerStates.reachable_invariant getBBox
           (fun st => forall c t s page,
              TextShortener.entry st.1 c t = Some s ->
              s = (measureText getBBox t c page).1)).
  - intros page0 c t s page. cbn [fst]. now rewrite ShortenerStates.entry_new.
  - intros text className [this page0] Hst c t s page. cbn [fst snd] in *.
    destruct (TextShortener.entry this className text) as [s0|] eqn:E.
    + destruct (CacheFacts.measureText_hit getBBox text className this page0 s0 E)
        as (this' & -> & Hsame). cbn [fst snd]. rewrite Hsame. apply Hst.
    + destruct (TextShortener.inherited text) eqn:Hin.
      * destruct (CacheFacts.measureText_foreign getBBox text className this page0 E Hin)
          as (this' & -> & Hsame). cbn [fst snd]. rewrite Hsame. apply Hst.
      * destruct (CacheFacts.measureText_miss getBBox text className this page0 E Hin)
          as (this' & -> & Hnew & Hsame). cbn [fst snd].
        destruct (decide ((c, t) = (className, text))) as [[= -> ->]|Hne].
        -- rewrite Hnew. intros [= <-]. apply measureInPage_stable.
        -- rewrite Hsame by exact Hne. apply Hst.
Qed.

(** X10. Over a layout engine whose answers do not depend on the page, the
    cache is transparent: in every state of the shortener, [measureText]
    answers a text that is not the name of a member of [Object.prototype]
    with exactly what a fresh measurement gives. *)
Theorem measureText_transparent text className st page :
  TextShortener.inherited text = false ->
  TextShortener.inherited className = false ->
  TextShortener.reachable getBBox st ->
  (TextShortener.measureText getBBox text className st).1
  = Box (measureText getBBox text className page).1.
Proof.
  intros Hin _ Hst.
  pose proof (reachable_coherent st Hst) as Hco.
  destruct st as [this page0]. cbn [fst] in Hco.
  destruct (TextShortener.entry this className text) as [s0|] eqn:E.
  - destruct (CacheFacts.measureText_hit getBBox text className this page0 s0 E)
      as (this' & -> & _). cbn [fst]. f_equal. now apply Hco.
  - destruct (CacheFacts.measureText_miss getBBox text className this page0 E Hin)
      as (this' & -> & _). cbn [fst]. f_equal. apply measureInPage_stable.
Qed.

End Stable.
End CacheTransparency.

(** ** The pixel budget of the ticks *)
Module TickBudget.
Import Plugin.Options.

Local Abbreviation perTick labelsRotated :=
  (if truthy labelsRotated then 20 else 80).

Lemma perTickWidth_perTick labelsRotated :
  Plugin.perTickWidth labelsRotated = Num.of_Z (perTick labelsRotated).
Proof. unfold Plugin.perTickWidth. now destruct (truthy labelsRotated). Qed.

Lemma perTick_pos labelsRotated : 0 < perTick labelsRotated.
Proof. destruct (truthy labelsRotated); lia. Qed.

Lemma Qdiv_le_mult (a b c : Q) : (0 < b)%Q -> (a / b <= c)%Q -> (a <= c * b)%Q.
Proof.
  intros Hb H.
  assert (E : (a == a / b * b)%Q).
  { field. intros E. rewrite E in Hb. exact (Qlt_irrefl _ Hb). }
  rewrite E at 1. apply Qmult_le_compat_r; [exact H | now apply Qlt_le_weak].
Qed.

Lemma Qle_div_mult (a b c : Q) : (0 < b)%Q -> (c <= a / b)%Q -> (c * b <= a)%Q.
Proof.
  intros Hb H.
  assert (E : (a == a / b * b)%Q).
  { field. intros E. rewrite E in Hb. exact (Qlt_irrefl _ Hb). }
  rewrite E. apply Qmult_le_compat_r; [exact H | now apply Qlt_le_weak].
Qed.

Lemma Qdiv_lt_mult (a b c : Q) : (0 < b)%Q -> (a / b < c)%Q -> (a < c * b)%Q.
Proof.
  intros Hb H.
  assert (E : (a == a / b * b)%Q).
  { field. intros E. rewrite E in Hb. exact (Qlt_irrefl _ Hb). }
  rewrite E at 1. now apply Qmult_lt_compat_r.
Qed.

(** With room for at least one tick, the stride is the integer
    [ceil(count / ticks)] for [ticks = floor(plotWidth / perTickWidth)]. *)
Lemma skip_integer labelsRotated (plotWidth : Q) categories :
  categories <> [] ->
  (inject_Z (perTick labelsRotated) <= plotWidth)%Q ->
  exists ticks k,
    1 <= ticks /\ 0 < k
    /\ (inject_Z (ticks * perTick labelsRotated) <= plotWidth)%Q
    /\ (plotWidth < inject_Z ((ticks + 1) * perTick labelsRotated))%Q
    /\ Z.of_nat (length categories) <= k * ticks
    /\ (Z.of_nat (length categories) <= ticks -> k = 1)
    /\ Plugin.skip labelsRotated (Fin plotWidth) categories = Num.of_Z k.
Proof.
  intros Hne Hroom.
  set (p := perTick labelsRotated) in *.
  assert (Hp : 0 < p) by apply perTick_pos.
  assert (HpQ : (0 < inject_Z p)%Q) by now rewrite <- (Zlt_Qlt 0).
  assert (Hn : 0 < Z.of_nat (length categories))
    by (destruct categories; [congruence | simpl; lia]).
  set (n := Z.of_nat (length categories)) in *.
  set (ticks := Qfloor (plotWidth / inject_Z p)).
  assert (Hfloor : (inject_Z ticks <= plotWidth / inject_Z p)%Q) by apply Qfloor_le.
  assert (Hfloor' : (plotWidth / inject_Z p < inject_Z (ticks + 1))%Q)
    by apply Qlt_floor.
  assert (Hticks : 1 <= ticks).
  { unfold ticks. rewrite <- (Qfloor_Z 1). apply Qfloor_resp_le.
    apply Qle_shift_div_l; [exact HpQ|]. now rewrite Qmult_1_l. }
  assert (HtQ : (0 < inject_Z ticks)%Q) by (rewrite <- (Zlt_Qlt 0); lia).
  set (k := Qceiling (inject_Z n / inject_Z ticks)).
  assert (Hceil : (inject_Z n / inject_Z ticks <= inject_Z k)%Q) by apply Qle_ceiling.
  assert (Hnk : n <= k * ticks).
  { rewrite Zle_Qle, inject_Z_mult. now apply Qdiv_le_mult. }
  exists ticks, k. repeat split.
  - exact Hticks.
  - destruct (Z_lt_le_dec 0 k) as [Hk|Hk]; [exact Hk|]. nia.
  - rewrite inject_Z_mult. now apply Qle_div_mult.
  - rewrite inject_Z_mult. now apply Qdiv_lt_mult.
  - exact Hnk.
  - intros Hfit.
    assert (Hle1 : (inject_Z n / inject_Z ticks <= inject_Z 1)%Q).
    { apply Qle_shift_div_r; [exact HtQ|]. rewrite Qmult_1_l, <- Zle_Qle. exact Hfit. }
    apply Qceiling_resp_le in Hle1. rewrite Qceiling_Z in Hle1. fold k in Hle1.
    assert (0 < k) by (destruct (Z_lt_le_dec 0 k); [assumption | nia]). lia.
  - unfold Plugin.skip. cbv zeta. rewrite perTickWidth_perTick. fold p.
    unfold Num.of_nat, Num.of_Z.
    rewrite NumFacts.div_Fin by (apply NumFacts.Qzero_inject_Z; lia).
    unfold Num.floor, Num.of_Z. fold ticks.
    rewrite NumFacts.div_Fin by (apply NumFacts.Qzero_inject_Z; lia).
    reflexivity.
Qed.

(** The multiples of [k] below [n] number [ceil(n / k)]. *)
Lemma stride_count (k : Z) (n : nat) :
  0 < k ->
  let L := Z.of_nat (length (filter
             (fun idx => Num.is_zero (Num.rem (Num.of_nat idx) (Num.of_Z k)) = true)
             (seq 0 n))) in
  (L - 1) * k < Z.of_nat n <= L * k.
Proof.
  intros Hk. induction n as [|n IH]; [simpl; lia|].
  cbv zeta in *. rewrite seq_S, filter_app, length_app. simpl seq.
  rewrite filter_cons, filter_nil.
  set (L := Z.of_nat (length (filter _ (seq 0 n)))) in *.
  destruct (decide _) as [Hz|Hz].
  - apply (TickFacts.rem_zero_mod n k Hk) in Hz.
    apply Z.mod_divide in Hz; [|lia]. destruct Hz as [m Hm].
    cbn [length]. rewrite Nat2Z.inj_add. fold L.
    assert (L - 1 < m) by (apply (Z.mul_lt_mono_pos_r k); lia).
    assert (m <= L) by (apply (Z.mul_le_mono_pos_r _ _ k); lia).
    assert (m = L) by lia. subst m. lia.
  - assert (Hmod : Z.of_nat n mod k <> 0).
    { intros E. apply Hz. now apply (TickFacts.rem_zero_mod n k Hk). }
    cbn [length]. rewrite Nat2Z.inj_add. fold L.
    assert (Z.of_nat n <> L * k).
    { intros E. apply Hmod. rewrite E. apply Z.mod_mul. lia. }
    lia.
Qed.

Lemma tickPositioner_filter labelsRotated plotWidth categories :
  Plugin.tickPositioner labelsRotated plotWidth categories
  = filter (fun idx => Num.is_zero (Num.rem (Num.of_nat idx)
                         (Plugin.skip labelsRotated plotWidth categories)) = true)
      (seq 0 (length categories)).
Proof.
  unfold Plugin.tickPositioner. cbv zeta. now rewrite TickFacts.indices_seq.
Qed.

Lemma tickPositioner_count labelsRotated (plotWidth : Q) categories :
  categories <> [] ->
  (inject_Z (perTick labelsRotated) <= plotWidth)%Q ->
  let L := Z.of_nat (length (Plugin.tickPositioner labelsRotated (Fin plotWidth) categories)) in
  1 <= L
  /\ (inject_Z (L * perTick labelsRotated) <= plotWidth)%Q.
Proof.
  intros Hne Hroom L.
  destruct (skip_integer labelsRotated plotWidth categories Hne Hroom)
    as (ticks & k & Hticks & Hk & Hfloor & _ & Hnk & _ & Hskip).
  unfold L. rewrite tickPositioner_filter, Hskip.
  pose proof (stride_count k (length categories) Hk) as Hcount. cbv zeta in Hcount.
  set (L0 := Z.of_nat (length (filter _ _))) in *.
  assert (Hn : 0 < Z.of_nat (length categories))
    by (destruct categories; [congruence | simpl; lia]).
  pose proof (perTick_pos labelsRotated) as Hp.
  assert (HL : 1 <= L0 <= ticks) by nia.
  split; [lia|].
  eapply Qle_trans; [|exact Hfloor]. rewrite <- Zle_Qle. nia.
Qed.

(** X11. The ticks keep to the pixel budget: for a non-empty axis on a plot
    at least one tick wide, the number of returned indices times the
    per-tick width (20 rotated, 80 otherwise) does not exceed the plot
    width. *)
Theorem tickPositioner_within_budget labelsRotated (plotWidth : Q) categories :
  categories <> [] ->
  (inject_Z (if truthy labelsRotated then 20 else 80) <= plotWidth)%Q ->
  (inject_Z (Z.of_nat (length
      (Plugin.tickPositioner labelsRotated (Fin plotWidth) categories))
    * (if truthy labelsRotated then 20 else 80)) <= plotWidth)%Q.
Proof.
  intros Hne Hroom.
  exact (proj2 (tickPositioner_count labelsRotated plotWidth categories Hne Hroom)).
Qed.

Lemma filter_all {A} (P : A -> Prop) `{!forall x, Decision (P x)} (l : list A) :
  Forall P l -> filter P l = l.
Proof.
  induction 1 as [|x l Hx _ IH]; [reflexivity|].
  rewrite filter_cons, decide_True by exact Hx. now rewrite IH.
Qed.

(** X12. When the plot is wide enough for a tick per category, no category
    is skipped. *)
Theorem tickPositioner_keeps_all labelsRotated (plotWidth : Q) categories :
  categories <> [] ->
  (inject_Z (Z.of_nat (length categories)
             * (if truthy labelsRotated then 20 else 80)) <= plotWidth)%Q ->
  Plugin.tickPositioner labelsRotated (Fin plotWidth) categories
  = seq 0 (length categories).
Proof.
  intros Hne Hroom.
  assert (Hn : 0 < Z.of_nat (length categories))
    by (destruct categories; [congruence | simpl; lia]).
  pose proof (perTick_pos labelsRotated) as Hp.
  assert (Hroom1 : (inject_Z (perTick labelsRotated) <= plotWidth)%Q).
  { eapply Qle_trans; [|exact Hroom]. rewrite <- Zle_Qle. nia. }
  destruct (skip_integer labelsRotated plotWidth categories Hne Hroom1)
    as (ticks & k & Hticks & Hk & _ & Hceil & _ & Hone & Hskip).
  assert (Hfit : Z.of_nat (length categories) <= ticks).
  { assert (H : (inject_Z (Z.of_nat (length categories) * perTick labelsRotated)
                 < inject_Z ((ticks + 1) * perTick labelsRotated))%Q)
      by (eapply Qle_lt_trans; eassumption).
    rewrite <- Zlt_Qlt in H. nia. }
  rewrite tickPositioner_filter, Hskip, (Hone Hfit).
  apply filter_all. apply Forall_forall. intros i _.
  apply (TickFacts.rem_zero_mod i 1); [lia | apply Z.mod_1_r].
Qed.

(** X13. The two closures together: on an axis whose labels are not
    rotated, with a plot at least 80 pixels wide, the formatter called with
    the positions the tick positioner returned shortens every label to a
    whole number of pixels that is at least 80. *)
Theorem formatter_budget_per_label labelsRotated (plotWidth : Q) categories :
  truthy labelsRotated = false ->
  categories <> [] ->
  (80 <= plotWidth)%Q ->
  exists pixelWidth,
    80 <= pixelWidth
    /\ forall getBBox fuel value ts,
         Plugin.formatter getBBox fuel labelsRotated (Fin plotWidth)
           (Plugin.tickPositioner labelsRotated (Fin plotWidth) categories) value ts
         = TextShortener.getShortened getBBox fuel value (Num.of_Z pixelWidth)
             Plugin.axisLabelsClass ts.
Proof.
  intros Hrot Hne Hroom.
  assert (Hper : perTick labelsRotated = 80) by now rewrite Hrot.
  assert (Hroom' : (inject_Z (perTick labelsRotated) <= plotWidth)%Q)
    by now rewrite Hper.
  destruct (tickPositioner_count labelsRotated plotWidth categories Hne Hroom')
    as [HL Hbudget]. cbv zeta in HL, Hbudget. rewrite Hper in Hbudget.
  set (positions := Plugin.tickPositioner labelsRotated (Fin plotWidth) categories) in *.
  set (L := Z.of_nat (length positions)) in *.
  assert (HLQ : (0 < inject_Z L)%Q) by (rewrite <- (Zlt_Qlt 0); lia).
  exists (Qfloor (plotWidth / inject_Z L + (1 # 2))). split.
  - rewrite <- (Qfloor_Z 80). apply Qfloor_resp_le.
    assert (H80 : (inject_Z 80 <= plotWidth / inject_Z L)%Q).
    { apply Qle_shift_div_l; [exact HLQ|].
      rewrite <- inject_Z_mult. rewrite Z.mul_comm. exact Hbudget. }
    lra.
  - intros getBBox fuel value ts. unfold Plugin.formatter. rewrite Hrot.
    unfold Num.of_nat, Num.of_Z. fold L.
    rewrite NumFacts.div_Fin by (apply NumFacts.Qzero_inject_Z; lia).
    reflexivity.
Qed.

End TickBudget.

(** ** How many measurements *)
Section TwoMeasurements.
Context {St : Type}.
Variable measureFunction : jsstring -> jsstring -> St -> measured * St.
Variable className : jsstring.

(** X16. With glyphs of one positive width and a positive target the
    estimate is exact enough: the loop returns after at most two
    measurements. *)
Theorem getShortened_fixed_pitch_two_measurements (pitch target : Q) text st :
  (0 < pitch)%Q -> (0 < target)%Q ->
  (forall s st0,
     widthOf (measureFunction s className st0).1
     = Fin (pitch * inject_Z (Z.of_nat (length s)))) ->
  exists r st',
    getShortened measureFunction 2 text (Fin target) className st = Some (r, st').
Proof.
  intros Hpitch Htarget Hfixed. unfold getShortened.
  rewrite shortenLoop_unfold. cbv zeta. unfold fits. rewrite Hfixed.
  destruct (Num.lt _ (Fin target)) eqn:Hfit; [eauto|].
  apply NumFacts.Qlt_bool_false_iff in Hfit.
  destruct text as [|c text'] eqn:Etext.
  { exfalso. simpl in Hfit. rewrite Qmult_0_r in Hfit.
    exact (Qlt_not_le _ _ Htarget Hfit). }
  rewrite <- Etext in *.
  assert (Hne : text <> []) by (rewrite Etext; discriminate).
  assert (Hlen : (0 < length text)%nat) by (rewrite Etext; simpl; lia).
  set (w := (pitch * inject_Z (Z.of_nat (length text)))%Q) in *.
  assert (Hpos : (0 < w)%Q) by (eapply Qlt_le_trans; eassumption).
  destruct (keepChars_retained text w target Hne Hpos Hfit) as (q & -> & Hqk).
  set (k := Spec.retainedChars (length text) w target) in *.
  pose proof (retainedChars_bounds (length text) w target Hlen Hpos Hfit) as Hb.
  fold k in Hb.
  destruct (Num.lt (Fin q) (Num.of_Z 1)) eqn:Hlt; [eauto|].
  assert (Hk : 1 <= k).
  { destruct (Z_lt_le_dec k 1) as [Hk|Hk]; [|exact Hk].
    apply (lt_one_iff q k Hqk) in Hk. congruence. }
  rewrite (substring0_integer text q k Hqk) by lia.
  rewrite shortenLoop_unfold. cbv zeta. unfold fits. rewrite Hfixed.
  assert (Num.lt (Fin (pitch * inject_Z (Z.of_nat (length (take (Z.to_nat k) text)))))
            (Fin target) = true) as ->; [|eauto].
  apply NumFacts.Qlt_bool_iff.
  rewrite length_take, Nat2Z.inj_min, Z2Nat.id, Z.min_l by lia.
  pose proof (fixed_pitch_reserve pitch target Hpitch (length text) Hlen Hfit Hk)
    as Hres. fold w k in Hres.
  rewrite inject_Z_plus in Hres.
  assert (H3 : (0 < pitch * inject_Z 3)%Q).
  { apply Qmult_lt_0_compat; [exact Hpitch | reflexivity]. }
  rewrite Qmult_plus_distr_r in Hres. lra.
Qed.

End TwoMeasurements.

(** ** Asking again *)
Module Repeat.

Section Again.
Variable getBBox : Page -> jsstring -> jsstring -> Size.

Lemma shortenLoop_keeps_entries (width : number) className fuel :
  forall short shortened st r st' c t s,
  shortenLoop (TextShortener.measureText getBBox) fuel width className
    short shortened st = Some (r, st') ->
  TextShortener.entry st.1 c t = Some s ->
  TextShortener.entry st'.1 c t = Some s.
Proof.
  induction fuel as [|fuel IH]; intros short shortened st r st' c t s H Hs;
    [discriminate|].
  rewrite shortenLoop_unfold in H. cbv zeta in H.
  apply (CacheFacts.measureText_keeps getBBox short className) in Hs.
  destruct (fits _ _ _ short st); [inversion H; subst; exact Hs|].
  destruct (Num.lt _ _); [inversion H; subst; exact Hs|].
  eapply IH; eassumption.
Qed.

(** A run replayed in a state that has all the entries the first run left,
    and none under a name of [Object.prototype], takes the same steps on
    cache hits alone. *)
Lemma shortenLoop_replay (width : number) className fuel :
  forall short shortened st r st' st2,
  shortenLoop (TextShortener.measureText getBBox) fuel width className
    short shortened st = Some (r, st') ->
  (forall c t s, TextShortener.entry st'.1 c t = Some s ->
                 TextShortener.entry st2.1 c t = Some s) ->
  (forall c t, TextShortener.inherited t = true ->
               TextShortener.entry st2.1 c t = None) ->
  exists st2',
    shortenLoop (TextShortener.measureText getBBox) fuel width className
      short shortened st2 = Some (r, st2')
    /\ st2'.2 = st2.2
    /\ forall c t, TextShortener.entry st2'.1 c t = TextShortener.entry st2.1 c t.
Proof.
  induction fuel as [|fuel IH]; intros short shortened st r st' st2 H Hsub Hclean;
    [discriminate|].
  rewrite shortenLoop_unfold in H. cbv zeta in H.
  rewrite shortenLoop_unfold. cbv zeta.
  set (m1 := TextShortener.measureText getBBox short className st) in *.
  set (m2 := TextShortener.measureText getBBox short className st2).
  assert (Hlater : forall c t s,
            TextShortener.entry m1.2.1 c t = Some s ->
            TextShortener.entry st'.1 c t = Some s).
  { intros c t s Hs. unfold fits in H. fold m1 in H.
    destruct (Num.lt (widthOf m1.1) width); [inversion H; subst; exact Hs|].
    destruct (Num.lt _ _); [inversion H; subst; exact Hs|].
    eapply shortenLoop_keeps_entries; eassumption. }
  assert (Hm2 : m2.1 = m1.1 /\ m2.2.2 = st2.2
                /\ forall c t, TextShortener.entry m2.2.1 c t
                               = TextShortener.entry st2.1 c t).
  { unfold m2. destruct st2 as [this2 page2]. cbn [fst snd] in *.
    destruct (CacheFacts.measureText_result getBBox short className st)
      as [(s & E1 & E2) | (E1 & Hin & _)]; fold m1 in E1.
    - fold m1 in E2. apply Hlater, Hsub in E2.
      destruct (CacheFacts.measureText_hit getBBox short className this2 page2 s E2)
        as (this' & -> & Hsame). cbn [fst snd]. now rewrite E1.
    - pose proof (Hclean className short Hin) as E2.
      destruct (CacheFacts.measureText_foreign getBBox short className this2 page2 E2 Hin)
        as (this' & -> & Hsame). cbn [fst snd]. now rewrite E1. }
  destruct Hm2 as (Hval & Hpage & Hsame).
  unfold fits in *. fold m1 in H. fold m2. rewrite Hval.
  destruct (Num.lt (widthOf m1.1) width).
  { inversion H; subst. exists m2.2. now repeat split. }
  destruct (Num.lt _ _).
  { inversion H; subst. exists m2.2. now repeat split. }
  destruct (IH _ _ _ _ _ m2.2 H) as (st2' & Hrun & Hpage' & Hsame').
  - intros c t s Hs. rewrite Hsame. now apply Hsub.
  - intros c t Hin. rewrite Hsame. now apply Hclean.
  - exists st2'. split; [exact Hrun|]. split; [now rewrite Hpage'|].
    intros c t. now rewrite Hsame'.
Qed.

(** X17. Asking again is free: once [getShortened] has returned, the same
    call in the state it left returns the same string, lays out nothing and
    leaves every entry of the cache as it is. *)
Theorem getShortened_again (width : number) fuel text className st r st' :
  TextShortener.inherited className = false ->
  TextShortener.reachable getBBox st ->
  TextShortener.getShortened getBBox fuel text width className st = Some (r, st') ->
  exists st'',
    TextShortener.getShortened getBBox fuel text width className st' = Some (r, st'')
    /\ st''.2 = st'.2
    /\ forall c t, TextShortener.entry st''.1 c t = TextShortener.entry st'.1 c t.
Proof.
  intros _ Hst H. unfold TextShortener.getShortened, getShortened in *.
  apply (shortenLoop_replay width className fuel text false st r st' st' H).
  - auto.
  - intros c t Hin.
    destruct (TextShortener.entry st'.1 c t) as [s|] eqn:E; [|reflexivity].
    exfalso.
    assert (Hnone : forall fuel0 short shortened st0 r0 st0',
              shortenLoop (TextShortener.measureText getBBox) fuel0 width className
                short shortened st0 = Some (r0, st0') ->
              TextShortener.entry st0.1 c t = None ->
              TextShortener.entry st0'.1 c t = None).
    { induction fuel0 as [|fuel0 IH]; intros short shortened st0 r0 st0' H0 Hn;
        [discriminate|].
      rewrite shortenLoop_unfold in H0. cbv zeta in H0.
      apply (CacheFacts.measureText_keeps_foreign getBBox short className st0 c t Hin)
        in Hn.
      destruct (fits _ _ _ short st0); [inversion H0; subst; exact Hn|].
      destruct (Num.lt _ _); [inversion H0; subst; exact Hn|].
      eapply IH; eassumption. }
    pose proof (ShortenerStates.reachable_no_foreign_entry getBBox c t st Hin Hst)
      as Hn.
    apply (Hnone _ _ _ _ _ _ H) in Hn. congruence.
Qed.

End Again.
End Repeat.

(** ** Edges of the wrapper *)
Module InitEdges.
Import Plugin.Options.

Lemma replaceSpaces_idempotent s :
  Str.replaceSpaces (Str.replaceSpaces s) = Str.replaceSpaces s.
Proof.
  apply InitFacts.replaceSpaces_id, InitFacts.replaceSpaces_no_space.
Qed.

(** X15. Rewriting the categories is idempotent: the categories the plugin
    hands to [merge], rewritten again (an axis created a second time from
    the same options object), stay as they are. *)
Theorem shortenPatch_categories_idempotent labelsRotated labelsRotated' cats :
  patchCategories
    (Plugin.shortenPatch labelsRotated'
       (patchCategories (Plugin.shortenPatch labelsRotated cats)))
  = patchCategories (Plugin.shortenPatch labelsRotated cats).
Proof.
  unfold Plugin.shortenPatch. cbn [patchCategories].
  rewrite map_map. apply map_ext. intros s. apply replaceSpaces_idempotent.
Qed.

End InitEdges.

(** ** The further statements at concrete inputs *)
Module FurtherWitnesses.
Import Plugin.Options.
Import Sample.

Lemma monospace_nonneg page c t : nonneg (width (monospace page c t)).
Proof.
  eexists. split; [reflexivity|]. rewrite <- (Zle_Qle 0). lia.
Qed.

Lemma fresh_reachable getBBox : TextShortener.reachable getBBox fresh.
Proof. exists [], blank. split; [constructor | reflexivity]. Qed.


Lemma getShortened_fixed_pitch_fits_witness :
  js "ab..." = js "."
  \/ exists w,
       widthOf (plainMeasure (js "ab...") (js "c") blank_after_two).1 = Num.of_Z w
       /\ w <= 50.
Proof.
  refine (getShortened_fixed_pitch_fits plainMeasure (js "c") 10 50 2 tenChars
            blank (js "ab...") _ _ _ _ _ eq_refl).
  - lia.
  - lia.
  - simpl. lia.
  - intros s st0. destruct s; reflexivity.
Defined.

Lemma getShortened_nonpositive_target_witness :
  getShortened plainMeasure 1 tenChars (Fin 0) (js "c") blank
  = Some (js ".", (plainMeasure tenChars (js "c") blank).2).
Proof.
  refine (getShortened_nonpositive_target plainMeasure (js "c") 100 0 0 tenChars
            blank _ eq_refl eq_refl _).
  - discriminate.
  - apply Qle_refl.
Defined.

Lemma getShortened_returns_no_longer_witness :
  exists r st',
    TextShortener.getShortened monospace 11 tenChars (Fin 50) (js "c") fresh
    = Some (r, st')
    /\ (length r <= 10)%nat.
Proof.
  exact (ShortenerStates.getShortened_returns_no_longer monospace 50 tenChars
           (js "c") fresh monospace_nonneg eq_refl eq_refl (fresh_reachable _)).
Defined.

Lemma getShortened_nan_target_never_returns_witness :
  TextShortener.getShortened monospace 5 tenChars NaN (js "c") fresh = None.
Proof.
  exact (ShortenerStates.getShortened_nan_target_never_returns monospace tenChars
           (js "c") fresh 5 eq_refl (fresh_reachable _)).
Defined.

Lemma getShortened_inherited_name_witness :
  exists st',
    TextShortener.getShortened monospace 2 (js "valueOf") (Fin 100) (js "c") fresh
    = Some (js "...", st')
    /\ st'.2 = blank.
Proof.
  exact (ShortenerStates.getShortened_inherited_name monospace (Fin 100)
           (js "valueOf") (js "c") fresh 0 eq_refl eq_refl eq_refl
           (fresh_reachable _)).
Defined.

Lemma measureAll_lays_out_once_witness :
  NoDup (layouts (TextShortener.measureAll proportional
                    [(js "W", js "c"); (js "W", js "c"); (js "", js "c")]
                    (TextShortener.new, {| layouts := [] |})).2).
Proof.
  refine (proj1 (CacheLayouts.measureAll_lays_out_once proportional
                   [(js "W", js "c"); (js "W", js "c"); (js "", js "c")] _)).
  repeat constructor.
Defined.

Lemma measureText_changes_own_entry_only_witness :
  TextShortener.entry
    (TextShortener.measureText proportional (js "W") (js "c") fresh).2.1
    (js "c") (js "i")
  = TextShortener.entry fresh.1 (js "c") (js "i").
Proof.
  refine (CacheLayouts.measureText_changes_own_entry_only proportional (js "W")
            (js "c") fresh (js "c") (js "i") eq_refl _).
  discriminate.
Defined.

Lemma getShortened_lays_out_prefixes_witness :
  exists st' added,
    TextShortener.getShortened monospace 2 tenChars (Fin 50) (js "c") fresh
    = Some (js "ab...", st')
    /\ layouts st'.2 = added ++ layouts fresh.2
    /\ Forall (fun e => e.1 = js "c" /\ e.2 `prefix_of` tenChars /\ e.2 <> []) added
    /\ (length added <= 2)%nat.
Proof.
  eexists.
  assert (H : TextShortener.getShortened monospace 2 tenChars (Fin 50) (js "c") fresh
              = Some (js "ab...",
                      (TextShortener.measureText monospace (js "ab") (js "c")
                         (TextShortener.measureText monospace tenChars (js "c") fresh).2).2))
    by (vm_compute; reflexivity).
  destruct (CacheLayouts.getShortened_lays_out_prefixes monospace (Fin 50) 2 tenChars
              (js "c") fresh _ _ eq_refl H) as (added & H1 & H2 & H3).
  exists added. repeat split; assumption.
Defined.

Lemma proportional_pageIndependent : pageIndependent proportional.
Proof. intros page page' c t. reflexivity. Qed.

Lemma measureText_transparent_witness :
  (TextShortener.measureText proportional (js "Wi") (js "c") fresh).1
  = Box (measureText proportional (js "Wi") (js "c") blank).1.
Proof.
  exact (CacheTransparency.measureText_transparent proportional
           proportional_pageIndependent (js "Wi") (js "c") fresh blank
           eq_refl eq_refl (fresh_reachable _)).
Defined.

Lemma tickPositioner_within_budget_witness :
  (inject_Z (Z.of_nat (length
      (Plugin.tickPositioner Undefined (Fin 400) (replicate 12 (js "a")))) * 80)
   <= 400)%Q.
Proof.
  refine (TickBudget.tickPositioner_within_budget Undefined 400
            (replicate 12 (js "a")) _ _).
  - discriminate.
  - unfold Qle. simpl. lia.
Defined.

Lemma tickPositioner_keeps_all_witness :
  Plugin.tickPositioner Undefined (Fin 400) (replicate 5 (js "a")) = seq 0 5.
Proof.
  refine (TickBudget.tickPositioner_keeps_all Undefined 400
            (replicate 5 (js "a")) _ _).
  - discriminate.
  - unfold Qle. simpl. lia.
Defined.

Lemma formatter_budget_per_label_witness :
  exists pixelWidth,
    80 <= pixelWidth
    /\ forall getBBox fuel value ts,
         Plugin.formatter getBBox fuel Undefined (Fin 400)
           (Plugin.tickPositioner Undefined (Fin 400) (replicate 12 (js "a")))
           value ts
         = TextShortener.getShortened getBBox fuel value (Num.of_Z pixelWidth)
             Plugin.axisLabelsClass ts.
Proof.
  refine (TickBudget.formatter_budget_per_label Undefined 400
            (replicate 12 (js "a")) eq_refl _ _).
  - discriminate.
  - unfold Qle. simpl. lia.
Defined.

Lemma getShortened_fixed_pitch_two_measurements_witness :
  exists r st',
    getShortened plainMeasure 2 tenChars (Fin 50) (js "c") blank = Some (r, st').
Proof.
  refine (getShortened_fixed_pitch_two_measurements plainMeasure (js "c") 10 50
            tenChars blank eq_refl eq_refl _).
  intros s st0. destruct s; reflexivity.
Defined.

Lemma getShortened_again_witness :
  exists st' st'',
    TextShortener.getShortened monospace 2 tenChars (Fin 50) (js "c") st'
    = Some (js "ab...", st'')
    /\ st''.2 = st'.2.
Proof.
  assert (H : TextShortener.getShortened monospace 2 tenChars (Fin 50) (js "c") fresh
              = Some (js "ab...",
                      (TextShortener.measureText monospace (js "ab") (js "c")
                         (TextShortener.measureText monospace tenChars (js "c") fresh).2).2))
    by (vm_compute; reflexivity).
  destruct (Repeat.getShortened_again monospace (Fin 50) 2 tenChars (js "c") fresh
              _ _ eq_refl (fresh_reachable _) H) as (st'' & H1 & H2 & _).
  eexists _, st''. split; [exact H1 | exact H2].
Defined.

End FurtherWitnesses.
